(** * Gerenciamento_Tarefas: circuit breaker, command services and read side

    A shallow embedding of the TypeScript core of the task manager:
    - the domain records [Task] and [DomainEvent];
    - the [CircuitBreaker] class (fields, [execute], [onSuccess], [onFailure]);
    - [TaskCommandService] (tasks passed by value) and [TaskService]
      (tasks stored and looked up by id);
    - [TaskQueryService.getRecentEvents].

    JavaScript numbers that the code only counts with or compares are
    integers here ([Z]).  The two sources of non-determinism of the host,
    [Date.now()] and [Math.random()], are oracles: the host carries the
    sequence of values the successive calls return and a cursor into it, so
    every read may return a different time.  Awaiting a timer has no other
    effect than letting later reads of the clock return later times. *)

From Stdlib Require Import ZArith List String Bool Lia DecimalString.
Import ListNotations.
Open Scope string_scope.
Open Scope list_scope.
Open Scope Z_scope.

(* ======================================================================= *)
(** ** Domain layer *)
(* ======================================================================= *)

Inductive TaskStatus : Type := pending | in_progress | completed | failed.

Inductive TaskPriority : Type := low | medium | high.

Record Task : Type := mkTask {
  id : string;
  title : string;
  status : TaskStatus;
  priority : TaskPriority;
  createdAt : Z;
  updatedAt : Z
}.

Inductive EventType : Type :=
  TASK_CREATED | TASK_UPDATED | TASK_COMPLETED | TASK_FAILED.

Record DomainEvent : Type := mkEvent {
  type : EventType;
  payload : Task;
  timestamp : Z;
  aggregateId : string
}.

Definition TaskStatus_eqb (a b : TaskStatus) : bool :=
  match a, b with
  | pending, pending | in_progress, in_progress
  | completed, completed | failed, failed => true
  | _, _ => false
  end.

(* ======================================================================= *)
(** ** The host: clock, random source, exceptions *)
(* ======================================================================= *)

(** [clock k] is what the k-th call of [Date.now()] returns, [random k] what
    the k-th evaluation of [Math.random().toString(36).substr(2, 9)] gives. *)
Record Host : Type := mkHost {
  clock : nat -> Z;
  clock_reads : nat;
  random : nat -> string;
  random_reads : nat
}.

Definition tick (h : Host) : Host :=
  {| clock := clock h; clock_reads := S (clock_reads h);
     random := random h; random_reads := random_reads h |}.

Definition draw (h : Host) : Host :=
  {| clock := clock h; clock_reads := clock_reads h;
     random := random h; random_reads := S (random_reads h) |}.

(** The time the next [Date.now()] returns. *)
Definition now (h : Host) : Z := clock h (clock_reads h).

(** [new Error(message)]. *)
Inductive Error : Type := mkError (message : string).

(** How a call ends: it returns a value or throws. *)
Inductive Completion (T : Type) : Type :=
| Return (value : T)
| Throw (error : Error).
Arguments Return {T} value.
Arguments Throw {T} error.

(** An asynchronous function body acting on the objects [W] it closes over. *)
Definition Js (W T : Type) : Type := W -> Host -> Completion T * W * Host.

Definition ret {W T} (v : T) : Js W T := fun w h => (Return v, w, h).

Definition throw {W T} (e : Error) : Js W T := fun w h => (Throw e, w, h).

Definition bind {W A B} (c : Js W A) (k : A -> Js W B) : Js W B :=
  fun w h =>
    match c w h with
    | (Return a, w1, h1) => k a w1 h1
    | (Throw e, w1, h1) => (Throw e, w1, h1)
    end.

Declare Scope js_scope.
Delimit Scope js_scope with js.
Notation "x <- c ;; k" := (bind c (fun x => k))
  (at level 61, c at next level, right associativity) : js_scope.
Notation "c ;;; k" := (bind c (fun _ => k))
  (at level 61, right associativity) : js_scope.

(** [Date.now()] *)
Definition Date_now {W} : Js W Z := fun w h => (Return (now h), w, tick h).

(** [Math.random().toString(36).substr(2, 9)] *)
Definition Math_random_suffix {W} : Js W string :=
  fun w h => (Return (random h (random_reads h)), w, draw h).

(** [await new Promise(resolve => setTimeout(resolve, ms))] *)
Definition sleep {W} (ms : Z) : Js W unit := ret tt.

(** A number inside a template literal. *)
Definition string_of_Z (z : Z) : string := NilZero.string_of_int (Z.to_int z).

(* ======================================================================= *)
(** ** Infrastructure layer: the circuit breaker *)
(* ======================================================================= *)

Inductive BreakerState : Type := CLOSED | OPEN | HALF_OPEN.

Definition BreakerState_eqb (a b : BreakerState) : bool :=
  match a, b with
  | CLOSED, CLOSED | OPEN, OPEN | HALF_OPEN, HALF_OPEN => true
  | _, _ => false
  end.

Record CircuitBreaker : Type := mkBreaker {
  failureCount : Z;
  successCount : Z;
  state : BreakerState;
  nextAttempt : Z;
  threshold : Z;
  timeout : Z;
  successThreshold : Z
}.

(** [new CircuitBreaker(threshold, timeout, successThreshold)]: the field
    initialiser of [nextAttempt] reads the clock. *)
Definition new_CircuitBreaker (threshold timeout successThreshold : Z) (h : Host)
  : CircuitBreaker * Host :=
  ({| failureCount := 0; successCount := 0; state := CLOSED;
      nextAttempt := now h;
      threshold := threshold; timeout := timeout;
      successThreshold := successThreshold |}, tick h).

(** [new CircuitBreaker()] with the default parameters. *)
Definition new_CircuitBreaker_default (h : Host) : CircuitBreaker * Host :=
  new_CircuitBreaker 3 5000 2 h.

Definition set_state (s : BreakerState) (cb : CircuitBreaker) : CircuitBreaker :=
  {| failureCount := failureCount cb; successCount := successCount cb;
     state := s; nextAttempt := nextAttempt cb;
     threshold := threshold cb; timeout := timeout cb;
     successThreshold := successThreshold cb |}.

Definition BreakerOpenError : Error := mkError "Circuit breaker is OPEN".

(** The first statement of [execute]: the test on [OPEN].  The clock is read
    only when the state is [OPEN]. *)
Definition gate (cb : CircuitBreaker) (h : Host)
  : Completion unit * CircuitBreaker * Host :=
  match state cb with
  | OPEN =>
      if now h <? nextAttempt cb
      then (Throw BreakerOpenError, cb, tick h)
      else (Return tt, set_state HALF_OPEN cb, tick h)
  | _ => (Return tt, cb, h)
  end.

Definition onSuccess (cb : CircuitBreaker) : CircuitBreaker :=
  let cb1 :=
    {| failureCount := 0; successCount := successCount cb;
       state := state cb; nextAttempt := nextAttempt cb;
       threshold := threshold cb; timeout := timeout cb;
       successThreshold := successThreshold cb |} in
  match state cb1 with
  | HALF_OPEN =>
      let n := successCount cb1 + 1 in
      if successThreshold cb1 <=? n
      then {| failureCount := failureCount cb1; successCount := 0;
              state := CLOSED; nextAttempt := nextAttempt cb1;
              threshold := threshold cb1; timeout := timeout cb1;
              successThreshold := successThreshold cb1 |}
      else {| failureCount := failureCount cb1; successCount := n;
              state := HALF_OPEN; nextAttempt := nextAttempt cb1;
              threshold := threshold cb1; timeout := timeout cb1;
              successThreshold := successThreshold cb1 |}
  | _ => cb1
  end.

(** The clock is read only when the threshold is reached. *)
Definition onFailure (cb : CircuitBreaker) (h : Host) : CircuitBreaker * Host :=
  let n := failureCount cb + 1 in
  if threshold cb <=? n
  then ({| failureCount := n; successCount := 0;
           state := OPEN; nextAttempt := now h + timeout cb;
           threshold := threshold cb; timeout := timeout cb;
           successThreshold := successThreshold cb |}, tick h)
  else ({| failureCount := n; successCount := 0;
           state := state cb; nextAttempt := nextAttempt cb;
           threshold := threshold cb; timeout := timeout cb;
           successThreshold := successThreshold cb |}, h).

(** [execute(fn)]: the breaker [cb] is the receiver, [w] the objects the
    closure [fn] works on. *)
Definition execute {W T} (fn : Js W T) (cb : CircuitBreaker) (w : W) (h : Host)
  : Completion T * CircuitBreaker * W * Host :=
  match gate cb h with
  | (Throw e, cb1, h1) => (Throw e, cb1, w, h1)
  | (Return _, cb1, h1) =>
      match fn w h1 with
      | (Return result, w2, h2) => (Return result, onSuccess cb1, w2, h2)
      | (Throw error, w2, h2) =>
          let (cb3, h3) := onFailure cb1 h2 in (Throw error, cb3, w2, h3)
      end
  end.

Definition getState (cb : CircuitBreaker) : BreakerState := state cb.

(** Projections of what a call leaves behind. *)
Definition completion_of {T W} (r : Completion T * CircuitBreaker * W * Host)
  : Completion T := fst (fst (fst r)).
Definition breaker_of {T W} (r : Completion T * CircuitBreaker * W * Host)
  : CircuitBreaker := snd (fst (fst r)).
Definition world_of {T W} (r : Completion T * CircuitBreaker * W * Host)
  : W := snd (fst r).
Definition host_of {T W} (r : Completion T * CircuitBreaker * W * Host)
  : Host := snd r.

(** The values the field [state] takes during one call of [execute], in
    order: after the gate (when it lets the call through) and after the
    outcome handler.  A rejected call assigns nothing. *)
Definition execute_states {W T} (fn : Js W T) (cb : CircuitBreaker) (w : W)
  (h : Host) : list BreakerState :=
  match gate cb h with
  | (Throw _, _, _) => []
  | (Return _, cb1, _) => [state cb1; state (breaker_of (execute fn cb w h))]
  end.

(** Number of times a sequence of states, started in [prev], enters [OPEN]. *)
Fixpoint entries_into_OPEN (prev : BreakerState) (l : list BreakerState) : nat :=
  match l with
  | [] => 0%nat
  | s :: l' =>
      ((if BreakerState_eqb s OPEN && negb (BreakerState_eqb prev OPEN)
        then 1 else 0) + entries_into_OPEN s l')%nat
  end.

(** A run of consecutive calls whose operation throws the given errors, one
    per call.  It returns the states the breaker went through, the breaker
    after each call, and the final host. *)
Fixpoint failing_calls (errors : list Error) (cb : CircuitBreaker) (h : Host)
  : list BreakerState * list CircuitBreaker * Host :=
  match errors with
  | [] => ([], [], h)
  | e :: rest =>
      let r := execute (@throw unit unit e) cb tt h in
      let '(sts, cbs, h') := failing_calls rest (breaker_of r) (host_of r) in
      (execute_states (@throw unit unit e) cb tt h ++ sts, breaker_of r :: cbs, h')
  end.

(** The breakers a program can hold between two calls: a freshly built one,
    or one left by [execute] on such a breaker. *)
Inductive reachable : CircuitBreaker -> Prop :=
| reachable_new (th tmo sth : Z) (h : Host) :
    reachable (fst (new_CircuitBreaker th tmo sth h))
| reachable_execute (W T : Type) (fn : Js W T) (cb : CircuitBreaker)
    (w : W) (h : Host) :
    reachable cb -> reachable (breaker_of (execute fn cb w h)).

(* ======================================================================= *)
(** ** Application layer: the command service (tasks passed by value) *)
(* ======================================================================= *)

Module TaskCommandService.

Record t : Type := mk {
  eventStore : list DomainEvent;
  circuitBreaker : CircuitBreaker
}.

(** [new TaskCommandService()] *)
Definition new (h : Host) : t * Host :=
  let (cb, h1) := new_CircuitBreaker_default h in
  ({| eventStore := []; circuitBreaker := cb |}, h1).

(** [this.eventStore.push(event)] *)
Definition publishEvent (event : DomainEvent) : Js (list DomainEvent) unit :=
  fun store h => (Return tt, store ++ [event], h).

(** The closure [createTask] hands to the breaker. *)
Definition createTask_body (title : string) (priority : TaskPriority)
  : Js (list DomainEvent) Task :=
  (sleep 300 ;;;
   stamp <- Date_now ;;
   suffix <- Math_random_suffix ;;
   created <- Date_now ;;
   updated <- Date_now ;;
   let task :=
     {| id := ("task_" ++ string_of_Z stamp ++ "_" ++ suffix)%string;
        title := title;
        status := pending;
        priority := priority;
        createdAt := created;
        updatedAt := updated |} in
   ts <- Date_now ;;
   publishEvent {| type := TASK_CREATED; payload := task;
                   timestamp := ts; aggregateId := id task |} ;;;
   ret task)%js.

(** The closure [updateTaskStatus] hands to the breaker. *)
Definition updateTaskStatus_body (task : Task) (status : TaskStatus)
  : Js (list DomainEvent) Task :=
  (sleep 200 ;;;
   updated <- Date_now ;;
   let updatedTask :=
     {| id := id task;
        title := title task;
        status := status;
        priority := priority task;
        createdAt := createdAt task;
        updatedAt := updated |} in
   ts <- Date_now ;;
   publishEvent
     {| type := if TaskStatus_eqb status completed
                then TASK_COMPLETED else TASK_UPDATED;
        payload := updatedTask;
        timestamp := ts;
        aggregateId := id task |} ;;;
   ret updatedTask)%js.

(** Run a closure through the service's own breaker and store. *)
Definition through_breaker {T} (fn : Js (list DomainEvent) T) (s : t) (h : Host)
  : Completion T * t * Host :=
  let r := execute fn (circuitBreaker s) (eventStore s) h in
  (completion_of r,
   {| eventStore := world_of r; circuitBreaker := breaker_of r |},
   host_of r).

Definition createTask (title : string) (priority : TaskPriority) (s : t)
  (h : Host) : Completion Task * t * Host :=
  through_breaker (createTask_body title priority) s h.

Definition updateTaskStatus (task : Task) (status : TaskStatus) (s : t)
  (h : Host) : Completion Task * t * Host :=
  through_breaker (updateTaskStatus_body task status) s h.

(** A copy of the log. *)
Definition getEvents (s : t) : list DomainEvent := eventStore s.

Definition getCircuitBreakerState (s : t) : BreakerState :=
  getState (circuitBreaker s).

End TaskCommandService.

(* ======================================================================= *)
(** ** Application layer: the read side *)
(* ======================================================================= *)

Module TaskQueryService.

(** [Array.prototype.slice(start)] with one integer argument: a negative
    start counts from the end, and the start is clamped to the array. *)
Definition slice {A} (l : list A) (start : Z) : list A :=
  let len := Z.of_nat (List.length l) in
  let k := if start <? 0 then Z.max (len + start) 0 else Z.min start len in
  skipn (Z.to_nat k) l.

(** [events.slice(-limit).reverse()] *)
Definition getRecentEvents (events : list DomainEvent) (limit : Z)
  : list DomainEvent :=
  rev (slice events (- limit)).

(** The call without a second argument: [limit = 5]. *)
Definition getRecentEvents_default (events : list DomainEvent)
  : list DomainEvent :=
  getRecentEvents events 5.

(** The filters of [getTaskMetrics]: [tasks.filter(t => t.status === st)]
    and [tasks.filter(t => t.priority === 'high')]. *)
Definition with_status_of (st : TaskStatus) (tasks : list Task) : list Task :=
  filter (fun t => TaskStatus_eqb (status t) st) tasks.

Definition completed_tasks : list Task -> list Task := with_status_of completed.
Definition in_progress_tasks : list Task -> list Task := with_status_of in_progress.
Definition pending_tasks : list Task -> list Task := with_status_of pending.
Definition failed_tasks : list Task -> list Task := with_status_of failed.

Definition high_tasks (tasks : list Task) : list Task :=
  filter (fun t => match priority t with
                   | high => true
                   | _ => false
                   end) tasks.

Record TaskMetrics : Type := mkMetrics {
  total : nat;
  completed : nat;
  inProgress : nat;
  pending : nat;
  failed : nat;
  highPriority : nat
}.

(** [getTaskMetrics(tasks)] *)
Definition getTaskMetrics (tasks : list Task) : TaskMetrics :=
  {| total := List.length tasks;
     completed := List.length (completed_tasks tasks);
     inProgress := List.length (in_progress_tasks tasks);
     pending := List.length (pending_tasks tasks);
     failed := List.length (failed_tasks tasks);
     highPriority := List.length (high_tasks tasks) |}.

End TaskQueryService.

(* ======================================================================= *)
(** ** src/TaskService.ts: tasks stored in the service, looked up by id *)
(* ======================================================================= *)

Module TaskService.

Record t : Type := mk {
  tasks : list Task;
  eventStore : list DomainEvent;
  circuitBreaker : CircuitBreaker
}.

(** The two arrays the closures work on. *)
Record Stores : Type := mkStores {
  s_tasks : list Task;
  s_events : list DomainEvent
}.

(** [new TaskService()].  The file imports [CircuitBreaker] from the
    infrastructure directory; the class of that name above is used. *)
Definition new (h : Host) : t * Host :=
  let (cb, h1) := new_CircuitBreaker_default h in
  ({| tasks := []; eventStore := []; circuitBreaker := cb |}, h1).

(** [this.eventStore.push(event)] *)
Definition publishEvent (event : DomainEvent) : Js Stores unit :=
  fun st h =>
    (Return tt,
     {| s_tasks := s_tasks st; s_events := s_events st ++ [event] |}, h).

(** [this.tasks.push(task)] *)
Definition push_task (task : Task) : Js Stores unit :=
  fun st h =>
    (Return tt,
     {| s_tasks := s_tasks st ++ [task]; s_events := s_events st |}, h).

(** [this.tasks = this.tasks.map(t => t.id === taskId ? updatedTask : t)] *)
Definition replace_task (taskId : string) (updatedTask : Task) : Js Stores unit :=
  fun st h =>
    (Return tt,
     {| s_tasks := List.map (fun t => if String.eqb (id t) taskId
                                 then updatedTask else t) (s_tasks st);
        s_events := s_events st |}, h).

(** [this.tasks.find(t => t.id === taskId)] *)
Definition find_task (taskId : string) : Js Stores (option Task) :=
  fun st h =>
    (Return (List.find (fun t => String.eqb (id t) taskId) (s_tasks st)), st, h).

Definition TaskNotFoundError : Error := mkError "Task not found".

Definition createTask_body (title : string) (priority : TaskPriority)
  : Js Stores Task :=
  (sleep 300 ;;;
   stamp <- Date_now ;;
   suffix <- Math_random_suffix ;;
   created <- Date_now ;;
   updated <- Date_now ;;
   let task :=
     {| id := ("task_" ++ string_of_Z stamp ++ "_" ++ suffix)%string;
        title := title;
        status := pending;
        priority := priority;
        createdAt := created;
        updatedAt := updated |} in
   push_task task ;;;
   ts <- Date_now ;;
   publishEvent {| type := TASK_CREATED; payload := task;
                   timestamp := ts; aggregateId := id task |} ;;;
   ret task)%js.

Definition updateTaskStatus_body (taskId : string) (status : TaskStatus)
  : Js Stores Task :=
  (sleep 200 ;;;
   found <- find_task taskId ;;
   match found with
   | None => throw TaskNotFoundError
   | Some task =>
       updated <- Date_now ;;
       let updatedTask :=
         {| id := id task;
            title := title task;
            status := status;
            priority := priority task;
            createdAt := createdAt task;
            updatedAt := updated |} in
       replace_task taskId updatedTask ;;;
       ts <- Date_now ;;
       publishEvent
         {| type := if TaskStatus_eqb status completed
                    then TASK_COMPLETED else TASK_UPDATED;
            payload := updatedTask;
            timestamp := ts;
            aggregateId := id task |} ;;;
       ret updatedTask
   end)%js.

Definition through_breaker {T} (fn : Js Stores T) (s : t) (h : Host)
  : Completion T * t * Host :=
  let r := execute fn (circuitBreaker s)
             {| s_tasks := tasks s; s_events := eventStore s |} h in
  (completion_of r,
   {| tasks := s_tasks (world_of r); eventStore := s_events (world_of r);
      circuitBreaker := breaker_of r |},
   host_of r).

Definition createTask (title : string) (priority : TaskPriority) (s : t)
  (h : Host) : Completion Task * t * Host :=
  through_breaker (createTask_body title priority) s h.

Definition updateTaskStatus (taskId : string) (status : TaskStatus) (s : t)
  (h : Host) : Completion Task * t * Host :=
  through_breaker (updateTaskStatus_body taskId status) s h.

Definition getTasks (s : t) : list Task := tasks s.

Definition getEvents (s : t) : list DomainEvent := eventStore s.

Definition getCircuitBreakerState (s : t) : BreakerState :=
  getState (circuitBreaker s).

End TaskService.

(* ======================================================================= *)
(** ** Vocabulary of the statements *)
(* ======================================================================= *)

(** The gate lets a call through: the breaker is not [OPEN], or the
    cool-down is over at the time the gate reads. *)
Definition admits (cb : CircuitBreaker) (h : Host) : bool :=
  negb (BreakerState_eqb (state cb) OPEN) || (nextAttempt cb <=? now h).

(** The host as the operation finds it once the gate is passed. *)
Definition after_gate (cb : CircuitBreaker) (h : Host) : Host := snd (gate cb h).

(** A log holds an update of an aggregate that no earlier event created. *)
Definition orphan_update (log : list DomainEvent) : Prop :=
  exists pre e post,
    log = pre ++ e :: post /\
    (type e = TASK_UPDATED \/ type e = TASK_COMPLETED) /\
    forall c, In c pre -> type c = TASK_CREATED -> aggregateId c <> aggregateId e.

(** A clock that advances ten seconds between two reads, and a host on it. *)
Definition slow_clock (k : nat) : Z := 10000 * Z.of_nat k.

Definition slow_host : Host :=
  {| clock := slow_clock; clock_reads := 0;
     random := fun _ => "k3j9x0q2a"; random_reads := 0 |}.

(** A clock that stands still. *)
Definition frozen_host : Host :=
  {| clock := fun _ => 1000; clock_reads := 0;
     random := fun _ => "k3j9x0q2a"; random_reads := 0 |}.

Definition boom : Error := mkError "boom".

Definition sample_task : Task :=
  {| id := "task_7_abc"; title := "write report"; status := pending;
     priority := high; createdAt := 7; updatedAt := 7 |}.

(** An operation that counts its invocations and returns the count. *)
Definition counting_op : Js nat nat := fun n h => (Return (S n), S n, h).

(** A default breaker after three failures, then a successful probe once the
    cool-down is over: it is [HALF_OPEN] with one success counted. *)
Definition probed_breaker : CircuitBreaker * Host :=
  let (cb0, h0) := new_CircuitBreaker_default slow_host in
  let r1 := execute (@throw unit unit boom) cb0 tt h0 in
  let r2 := execute (@throw unit unit boom) (breaker_of r1) tt (host_of r1) in
  let r3 := execute (@throw unit unit boom) (breaker_of r2) tt (host_of r2) in
  let r4 := execute (@ret unit unit tt) (breaker_of r3) tt (host_of r3) in
  (breaker_of r4, host_of r4).

(** A default breaker tripped by three failures while the clock stands
    still: it is [OPEN] until 6000. *)
Definition tripped_breaker : CircuitBreaker * Host :=
  let (cb0, h0) := new_CircuitBreaker_default frozen_host in
  let r1 := execute (@throw unit unit boom) cb0 tt h0 in
  let r2 := execute (@throw unit unit boom) (breaker_of r1) tt (host_of r1) in
  let r3 := execute (@throw unit unit boom) (breaker_of r2) tt (host_of r2) in
  (breaker_of r3, host_of r3).

(** A [TaskService] that was asked three times, while the clock stands still,
    to update a task it does not hold. *)
Definition thrice_missed : TaskService.t * Host :=
  let (s0, h0) := TaskService.new frozen_host in
  let r1 := TaskService.updateTaskStatus "task_7_abc" completed s0 h0 in
  let r2 := TaskService.updateTaskStatus "task_7_abc" completed
              (snd (fst r1)) (snd r1) in
  let r3 := TaskService.updateTaskStatus "task_7_abc" completed
              (snd (fst r2)) (snd r2) in
  (snd (fst r3), snd r3).

(** A [TaskService] holding one task, and the id that task was given. *)
Definition stocked_service : TaskService.t * Host :=
  let (s0, h0) := TaskService.new slow_host in
  let r := TaskService.createTask "write report" high s0 h0 in
  (snd (fst r), snd r).

Definition stocked_id : string :=
  match TaskService.tasks (fst stocked_service) with
  | t :: _ => id t
  | [] => ""
  end.

(** The task [updateTaskStatus] builds from [task] at time [t]. *)
Definition with_status (task : Task) (status : TaskStatus) (t : Z) : Task :=
  {| id := id task; title := title task; status := status;
     priority := priority task; createdAt := createdAt task; updatedAt := t |}.

(** The type of the event the update path publishes. *)
Definition update_event_type (status : TaskStatus) : EventType :=
  if TaskStatus_eqb status completed then TASK_COMPLETED else TASK_UPDATED.

(** What a run of failing calls went through. *)
Definition run_states (r : list BreakerState * list CircuitBreaker * Host)
  : list BreakerState := fst (fst r).

Definition run_breakers (r : list BreakerState * list CircuitBreaker * Host)
  : list CircuitBreaker := snd (fst r).

(* ======================================================================= *)
(** ** Presentation layer: the reducer of the component *)
(* ======================================================================= *)

Module Presentation.

Record AppState : Type := mkAppState {
  tasks : list Task;
  isLoading : bool;
  error : option string
}.

Inductive AppAction : Type :=
| ADD_TASK (payload : Task)
| UPDATE_TASK (payload : Task)
| SET_LOADING (payload : bool)
| SET_ERROR (payload : option string).

Definition appReducer (state : AppState) (action : AppAction) : AppState :=
  match action with
  | ADD_TASK payload =>
      {| tasks := tasks state ++ [payload];
         isLoading := false;
         error := error state |}
  | UPDATE_TASK payload =>
      {| tasks := List.map (fun t => if String.eqb (id t) (id payload)
                                     then payload else t) (tasks state);
         isLoading := false;
         error := error state |}
  | SET_LOADING payload =>
      {| tasks := tasks state; isLoading := payload; error := error state |}
  | SET_ERROR payload =>
      {| tasks := tasks state; isLoading := false; error := payload |}
  end.

(** The state [useReducer] starts from. *)
Definition initialState : AppState :=
  {| tasks := []; isLoading := false; error := None |}.

End Presentation.

(* ======================================================================= *)
(** ** Runs of calls and histories of the services *)
(* ======================================================================= *)

(** The operation of a call that is to end as [o] says: [None] returns,
    [Some e] throws [e]. *)
Definition outcome_op (o : option Error) : Js unit unit :=
  match o with
  | None => ret tt
  | Some e => throw e
  end.

(** Consecutive calls of [execute] on one breaker, one per outcome: how each
    call ended for the caller, the breaker and the host at the end. *)
Fixpoint run_calls (outcomes : list (option Error)) (cb : CircuitBreaker)
  (h : Host) : list (Completion unit) * CircuitBreaker * Host :=
  match outcomes with
  | [] => ([], cb, h)
  | o :: rest =>
      let r := execute (outcome_op o) cb tt h in
      let '(cs, cb', h') := run_calls rest (breaker_of r) (host_of r) in
      (completion_of r :: cs, cb', h')
  end.

(** What the caller of each call would see if no breaker stood in between. *)
Definition bare_completion (o : option Error) : Completion unit :=
  match o with
  | None => Return tt
  | Some e => Throw e
  end.

(** Starting with [cur] failures in a row, the outcomes never bring the
    number of consecutive failures up to [th]. *)
Fixpoint streaks_below (th cur : Z) (outcomes : list (option Error)) : bool :=
  match outcomes with
  | [] => true
  | None :: rest => streaks_below th 0 rest
  | Some _ :: rest => (cur + 1 <? th) && streaks_below th (cur + 1) rest
  end.

(** The command services a program can hold: a new one, or one left by a
    command on such a service. *)
Inductive command_reachable : TaskCommandService.t -> Prop :=
| command_new (h : Host) :
    command_reachable (fst (TaskCommandService.new h))
| command_createTask (ttl : string) (prio : TaskPriority)
    (s : TaskCommandService.t) (h : Host) :
    command_reachable s ->
    command_reachable (snd (fst (TaskCommandService.createTask ttl prio s h)))
| command_updateTaskStatus (task : Task) (st : TaskStatus)
    (s : TaskCommandService.t) (h : Host) :
    command_reachable s ->
    command_reachable (snd (fst (TaskCommandService.updateTaskStatus task st s h))).

(** The same for the service that stores its tasks. *)
Inductive service_reachable : TaskService.t -> Prop :=
| service_new (h : Host) :
    service_reachable (fst (TaskService.new h))
| service_createTask (ttl : string) (prio : TaskPriority)
    (s : TaskService.t) (h : Host) :
    service_reachable s ->
    service_reachable (snd (fst (TaskService.createTask ttl prio s h)))
| service_updateTaskStatus (taskId : string) (st : TaskStatus)
    (s : TaskService.t) (h : Host) :
    service_reachable s ->
    service_reachable (snd (fst (TaskService.updateTaskStatus taskId st s h))).

(** An event as both services build it: it carries the id of its payload
    and is not of the type that no path emits. *)
Definition well_formed_event (e : DomainEvent) : Prop :=
  aggregateId e = id (payload e) /\ type e <> TASK_FAILED.

(** Number of TASK_CREATED events of a log. *)
Definition created_count (log : list DomainEvent) : nat :=
  List.length (filter (fun e => match type e with
                                | TASK_CREATED => true
                                | _ => false
                                end) log).

(* ======================================================================= *)
(** ** The circuit breaker: basic facts *)
(* ======================================================================= *)

Section BreakerFacts.

Variables (W T : Type).
Variable fn : Js W T.

Lemma gate_passes cb h :
  state cb <> OPEN -> gate cb h = (Return tt, cb, h).
Proof.
  unfold gate. destruct (state cb); congruence.
Qed.

Lemma gate_rejects cb h :
  state cb = OPEN -> now h < nextAttempt cb ->
  gate cb h = (Throw BreakerOpenError, cb, tick h).
Proof.
  intros Hs Hlt. unfold gate. rewrite Hs.
  destruct (Z.ltb_spec (now h) (nextAttempt cb)); [reflexivity | lia].
Qed.

Lemma gate_probes cb h :
  state cb = OPEN -> nextAttempt cb <= now h ->
  gate cb h = (Return tt, set_state HALF_OPEN cb, tick h).
Proof.
  intros Hs Hle. unfold gate. rewrite Hs.
  destruct (Z.ltb_spec (now h) (nextAttempt cb)); [lia | reflexivity].
Qed.

Lemma gate_leaves_not_OPEN cb h u cb1 h1 :
  gate cb h = (Return u, cb1, h1) -> state cb1 <> OPEN.
Proof.
  unfold gate. destruct (state cb) eqn:Hs.
  - intros [= <- <-]. congruence.
  - destruct (now h <? nextAttempt cb); intros [= <- <-]; simpl; congruence.
  - intros [= <- <-]. congruence.
Qed.

Lemma admits_spec cb h :
  admits cb h = true <-> (state cb <> OPEN \/ nextAttempt cb <= now h).
Proof.
  unfold admits. rewrite orb_true_iff, Z.leb_le.
  destruct (state cb); simpl; intuition congruence.
Qed.

Lemma gate_admits cb h :
  admits cb h = true ->
  exists cb1, gate cb h = (Return tt, cb1, after_gate cb h) /\
              state cb1 <> OPEN /\
              failureCount cb1 = failureCount cb /\
              successCount cb1 = successCount cb /\
              threshold cb1 = threshold cb /\
              timeout cb1 = timeout cb /\
              successThreshold cb1 = successThreshold cb.
Proof.
  intros Ha. apply admits_spec in Ha. unfold after_gate.
  destruct (state cb) eqn:Hs.
  - exists cb. rewrite gate_passes by congruence. simpl.
    repeat split; congruence.
  - destruct Ha as [Ha | Ha]; [congruence |].
    exists (set_state HALF_OPEN cb). rewrite gate_probes by assumption.
    simpl. repeat split; congruence.
  - exists cb. rewrite gate_passes by congruence. simpl.
    repeat split; congruence.
Qed.

Lemma gate_refuses cb h :
  admits cb h = false -> gate cb h = (Throw BreakerOpenError, cb, tick h).
Proof.
  unfold admits. rewrite orb_false_iff, negb_false_iff, Z.leb_gt.
  intros [Hs Hlt]. apply gate_rejects; [| assumption].
  destruct (state cb); simpl in Hs; congruence.
Qed.

Lemma execute_refused cb w h :
  admits cb h = false ->
  execute fn cb w h = (Throw BreakerOpenError, cb, w, tick h).
Proof.
  intros Ha. unfold execute. rewrite (gate_refuses _ _ Ha). reflexivity.
Qed.

Lemma execute_returns cb cb1 w h v w2 h2 :
  gate cb h = (Return tt, cb1, after_gate cb h) ->
  fn w (after_gate cb h) = (Return v, w2, h2) ->
  execute fn cb w h = (Return v, onSuccess cb1, w2, h2).
Proof.
  intros Hg Hf. unfold execute. rewrite Hg, Hf. reflexivity.
Qed.

Lemma execute_throws cb cb1 w h e w2 h2 :
  gate cb h = (Return tt, cb1, after_gate cb h) ->
  fn w (after_gate cb h) = (Throw e, w2, h2) ->
  execute fn cb w h =
  (Throw e, fst (onFailure cb1 h2), w2, snd (onFailure cb1 h2)).
Proof.
  intros Hg Hf. unfold execute. rewrite Hg, Hf.
  destruct (onFailure cb1 h2). reflexivity.
Qed.

Lemma onSuccess_not_OPEN cb : state cb <> OPEN -> state (onSuccess cb) <> OPEN.
Proof.
  unfold onSuccess. simpl. destruct (state cb) eqn:Hs; simpl; try congruence.
  destruct (successThreshold cb <=? successCount cb + 1); simpl; congruence.
Qed.

Lemma onFailure_OPEN cb h :
  state (fst (onFailure cb h)) = OPEN ->
  state cb = OPEN \/
  (threshold (fst (onFailure cb h)) <= failureCount (fst (onFailure cb h)) /\
   successCount (fst (onFailure cb h)) = 0).
Proof.
  unfold onFailure.
  destruct (Z.leb_spec (threshold cb) (failureCount cb + 1)); simpl; auto.
Qed.

End BreakerFacts.

(** Between calls an [OPEN] breaker has reached its threshold and counts no
    success. *)
Lemma reachable_OPEN cb :
  reachable cb -> state cb = OPEN ->
  threshold cb <= failureCount cb /\ successCount cb = 0.
Proof.
  induction 1 as [th tmo sth h | W T fn cb w h Hr IH]; simpl.
  - discriminate.
  - unfold breaker_of, execute.
    destruct (gate cb h) as [[[u|e] cb1] h1] eqn:Hg.
    + pose proof (gate_leaves_not_OPEN _ _ _ _ _ Hg) as Hn.
      destruct (fn w h1) as [[[v|e] w2] h2]; simpl.
      * intros Ho. exfalso. exact (onSuccess_not_OPEN _ Hn Ho).
      * destruct (onFailure cb1 h2) as [cb3 h3] eqn:Hf. simpl.
        intros Ho. pose proof (onFailure_OPEN cb1 h2) as Hx.
        rewrite Hf in Hx. simpl in Hx. destruct (Hx Ho); [contradiction | assumption].
    + simpl. unfold gate in Hg. destruct (state cb) eqn:Hs; try discriminate.
      destruct (now h <? nextAttempt cb); inversion Hg; subst. intros _. auto.
Qed.

Lemma tripped_breaker_reachable : reachable (fst tripped_breaker).
Proof.
  unfold tripped_breaker. simpl fst.
  do 3 apply reachable_execute.
  apply (reachable_new 3 5000 2 frozen_host).
Qed.

Lemma tripped_breaker_value :
  fst tripped_breaker =
  {| failureCount := 3; successCount := 0; state := OPEN; nextAttempt := 6000;
     threshold := 3; timeout := 5000; successThreshold := 2 |}.
Proof. reflexivity. Qed.

(* ======================================================================= *)
(** ** The circuit breaker: the gate while OPEN *)
(* ======================================================================= *)

(** C5. While the breaker is OPEN and the clock reads a time before
    [nextAttempt], [execute] throws the breaker-open error whatever the
    operation is, leaves the objects the operation works on as they were (the
    operation did not run) and leaves every field of the breaker unchanged;
    only the clock has been read once. *)
Theorem execute_rejects_while_OPEN :
  forall (W T : Type) (fn : Js W T) (cb : CircuitBreaker) (w : W) (h : Host),
    state cb = OPEN -> now h < nextAttempt cb ->
    execute fn cb w h = (Throw BreakerOpenError, cb, w, tick h).
Proof.
  intros W T fn cb w h Hs Hlt. unfold execute.
  rewrite (gate_rejects cb h Hs Hlt). reflexivity.
Qed.

Lemma execute_rejects_while_OPEN_witness :
  state (fst tripped_breaker) = OPEN /\
  now (snd tripped_breaker) < nextAttempt (fst tripped_breaker) /\
  execute counting_op (fst tripped_breaker) 0%nat (snd tripped_breaker) =
  (Throw BreakerOpenError, fst tripped_breaker, 0%nat, tick (snd tripped_breaker)).
Proof.
  split; [reflexivity |]. split; [reflexivity |].
  apply (execute_rejects_while_OPEN nat nat counting_op);
    reflexivity.
Defined.

(* ======================================================================= *)
(** ** The circuit breaker: failures while HALF_OPEN *)
(* ======================================================================= *)

(** C1, as the spec words it, fails: after a success in HALF_OPEN the failure
    count is back at 0, so one failure leaves a default breaker HALF_OPEN
    with its old [nextAttempt]. *)
Lemma failure_after_success_stays_HALF_OPEN :
  let cb := fst probed_breaker in
  let r := execute (@throw unit unit boom) cb tt (snd probed_breaker) in
  state cb = HALF_OPEN /\ successCount cb = 1 /\
  completion_of r = Throw boom /\
  state (breaker_of r) = HALF_OPEN /\
  state (breaker_of r) <> OPEN /\
  nextAttempt (breaker_of r) = nextAttempt cb.
Proof.
  cbv zeta. repeat split; try reflexivity. vm_compute. discriminate.
Qed.

(** C1 (amended). For every breaker in HALF_OPEN, a call whose operation
    throws rethrows the error, resets [successCount] to 0 and adds one to
    [failureCount]; when that count reaches the threshold the breaker goes
    back to OPEN with [nextAttempt] set to the time read then plus the
    timeout. *)
Theorem HALF_OPEN_failure :
  forall (W T : Type) (fn : Js W T) (cb : CircuitBreaker) (w : W) (h : Host)
         (e : Error) (w2 : W) (h2 : Host),
    state cb = HALF_OPEN ->
    fn w h = (Throw e, w2, h2) ->
    let r := execute fn cb w h in
    completion_of r = Throw e /\
    world_of r = w2 /\
    successCount (breaker_of r) = 0 /\
    failureCount (breaker_of r) = failureCount cb + 1 /\
    (threshold cb <= failureCount cb + 1 ->
     state (breaker_of r) = OPEN /\
     nextAttempt (breaker_of r) = now h2 + timeout cb).
Proof.
  intros W T fn cb w h e w2 h2 Hs Hf. cbv zeta.
  unfold execute. rewrite gate_passes by congruence. rewrite Hf.
  unfold onFailure.
  destruct (Z.leb_spec (threshold cb) (failureCount cb + 1)); simpl;
    repeat split; try reflexivity; intros; lia.
Qed.

Lemma HALF_OPEN_failure_witness :
  let cb := set_state HALF_OPEN (fst tripped_breaker) in
  let r := execute (@throw nat nat boom) cb 0%nat slow_host in
  state cb = HALF_OPEN /\
  completion_of r = Throw boom /\
  world_of r = 0%nat /\
  successCount (breaker_of r) = 0 /\
  failureCount (breaker_of r) = 4 /\
  state (breaker_of r) = OPEN /\
  nextAttempt (breaker_of r) = 5000.
Proof.
  cbv zeta.
  pose proof (HALF_OPEN_failure nat nat (@throw nat nat boom)
                (set_state HALF_OPEN (fst tripped_breaker)) 0%nat slow_host
                boom 0%nat slow_host eq_refl eq_refl) as H.
  cbv zeta in H. destruct H as (H1 & H2 & H3 & H4 & H5).
  split; [reflexivity |].
  split; [exact H1 |]. split; [exact H2 |]. split; [exact H3 |].
  split; [exact H4 |]. apply H5. vm_compute. discriminate.
Defined.

(** The first call of a HALF_OPEN episode is such a call: a breaker that is
    OPEN between two calls has its failure count at the threshold, so a
    failing probe sends it back to OPEN. *)
Lemma failing_probe_reopens :
  forall (W T : Type) (fn : Js W T) (cb : CircuitBreaker) (w : W) (h : Host)
         (e : Error) (w2 : W) (h2 : Host),
    reachable cb -> state cb = OPEN -> nextAttempt cb <= now h ->
    fn w (tick h) = (Throw e, w2, h2) ->
    execute fn cb w h =
    (Throw e,
     {| failureCount := failureCount cb + 1; successCount := 0;
        state := OPEN; nextAttempt := now h2 + timeout cb;
        threshold := threshold cb; timeout := timeout cb;
        successThreshold := successThreshold cb |},
     w2, tick h2).
Proof.
  intros W T fn cb w h e w2 h2 Hr Hs Hle Hf.
  destruct (reachable_OPEN cb Hr Hs) as [Hth _].
  unfold execute. rewrite (gate_probes cb h Hs Hle), Hf.
  unfold onFailure. simpl.
  destruct (Z.leb_spec (threshold cb) (failureCount cb + 1)); [reflexivity | lia].
Qed.

(* ======================================================================= *)
(** ** The circuit breaker: entering HALF_OPEN *)
(* ======================================================================= *)

(** C9. For a breaker as it stands between two calls: when it is OPEN and the
    cool-down is over, the gate of [execute] makes it HALF_OPEN and its
    [successCount] is 0 at that point; and the gate is the only place where
    HALF_OPEN is entered, since neither outcome handler produces HALF_OPEN
    from another state. *)
Theorem HALF_OPEN_starts_with_no_success :
  forall (cb : CircuitBreaker) (h : Host),
    reachable cb -> state cb = OPEN -> nextAttempt cb <= now h ->
    gate cb h = (Return tt, set_state HALF_OPEN cb, tick h) /\
    state (set_state HALF_OPEN cb) = HALF_OPEN /\
    successCount (set_state HALF_OPEN cb) = 0 /\
    (forall cb' : CircuitBreaker,
        state (onSuccess cb') = HALF_OPEN -> state cb' = HALF_OPEN) /\
    (forall (cb' : CircuitBreaker) (h' : Host),
        state (fst (onFailure cb' h')) = HALF_OPEN -> state cb' = HALF_OPEN).
Proof.
  intros cb h Hr Hs Hle.
  split; [apply gate_probes; assumption |].
  split; [reflexivity |].
  split; [simpl; apply (reachable_OPEN cb Hr Hs) |].
  split.
  - intros cb'. unfold onSuccess. simpl.
    destruct (state cb') eqn:E; simpl; try congruence.
  - intros cb' h'. unfold onFailure.
    destruct (threshold cb' <=? failureCount cb' + 1); simpl; congruence.
Qed.

Lemma HALF_OPEN_starts_with_no_success_witness :
  let cb := fst tripped_breaker in
  let h := tick (tick slow_host) in
  state cb = OPEN /\ nextAttempt cb <= now h /\
  gate cb h = (Return tt, set_state HALF_OPEN cb, tick h) /\
  successCount (set_state HALF_OPEN cb) = 0.
Proof.
  cbv zeta.
  split; [reflexivity |]. split; [vm_compute; discriminate |].
  destruct (HALF_OPEN_starts_with_no_success (fst tripped_breaker)
              (tick (tick slow_host)) tripped_breaker_reachable eq_refl)
    as (Hg & _ & Hc & _).
  - vm_compute. discriminate.
  - split; assumption.
Defined.

(* ======================================================================= *)
(** ** The circuit breaker: a run of failing calls *)
(* ======================================================================= *)

Section FailingRuns.

Lemma failing_calls_cons e rest cb h :
  let r := execute (@throw unit unit e) cb tt h in
  run_states (failing_calls (e :: rest) cb h) =
    execute_states (@throw unit unit e) cb tt h
    ++ run_states (failing_calls rest (breaker_of r) (host_of r)) /\
  run_breakers (failing_calls (e :: rest) cb h) =
    breaker_of r :: run_breakers (failing_calls rest (breaker_of r) (host_of r)).
Proof.
  cbv zeta. unfold run_states, run_breakers. simpl.
  destruct (failing_calls rest _ _) as [[sts cbs] h']. split; reflexivity.
Qed.

Lemma failing_call_below e cb h :
  state cb = CLOSED -> failureCount cb + 1 < threshold cb ->
  execute (@throw unit unit e) cb tt h =
    (Throw e,
     {| failureCount := failureCount cb + 1; successCount := 0;
        state := CLOSED; nextAttempt := nextAttempt cb;
        threshold := threshold cb; timeout := timeout cb;
        successThreshold := successThreshold cb |}, tt, h) /\
  execute_states (@throw unit unit e) cb tt h = [CLOSED; CLOSED].
Proof.
  intros Hs Hlt.
  assert (Hx : execute (@throw unit unit e) cb tt h =
    (Throw e,
     {| failureCount := failureCount cb + 1; successCount := 0;
        state := CLOSED; nextAttempt := nextAttempt cb;
        threshold := threshold cb; timeout := timeout cb;
        successThreshold := successThreshold cb |}, tt, h)).
  { unfold execute. rewrite gate_passes by congruence. unfold throw, onFailure.
    destruct (Z.leb_spec (threshold cb) (failureCount cb + 1)); [lia |].
    rewrite Hs. reflexivity. }
  split; [exact Hx |].
  unfold execute_states. rewrite Hx. rewrite gate_passes by congruence.
  rewrite Hs. reflexivity.
Qed.

Lemma failing_call_trips e cb h :
  state cb = CLOSED -> threshold cb <= failureCount cb + 1 ->
  execute (@throw unit unit e) cb tt h =
    (Throw e,
     {| failureCount := failureCount cb + 1; successCount := 0;
        state := OPEN; nextAttempt := now h + timeout cb;
        threshold := threshold cb; timeout := timeout cb;
        successThreshold := successThreshold cb |}, tt, tick h) /\
  execute_states (@throw unit unit e) cb tt h = [CLOSED; OPEN].
Proof.
  intros Hs Hle.
  assert (Hx : execute (@throw unit unit e) cb tt h =
    (Throw e,
     {| failureCount := failureCount cb + 1; successCount := 0;
        state := OPEN; nextAttempt := now h + timeout cb;
        threshold := threshold cb; timeout := timeout cb;
        successThreshold := successThreshold cb |}, tt, tick h)).
  { unfold execute. rewrite gate_passes by congruence. unfold throw, onFailure.
    destruct (Z.leb_spec (threshold cb) (failureCount cb + 1)); [| lia].
    reflexivity. }
  split; [exact Hx |].
  unfold execute_states. rewrite Hx. rewrite gate_passes by congruence.
  rewrite Hs. reflexivity.
Qed.

Lemma failing_call_rejected e cb h :
  state cb = OPEN -> now h < nextAttempt cb ->
  execute (@throw unit unit e) cb tt h = (Throw BreakerOpenError, cb, tt, tick h) /\
  execute_states (@throw unit unit e) cb tt h = [].
Proof.
  intros Hs Hlt. unfold execute, execute_states.
  rewrite (gate_rejects cb h Hs Hlt). split; reflexivity.
Qed.

(** While every read of the clock stays before [nextAttempt], an OPEN
    breaker rejects the whole run and does not change. *)
Lemma failing_calls_all_rejected errors :
  forall cb h,
    state cb = OPEN ->
    (forall k, (k < List.length errors)%nat ->
               clock h (clock_reads h + k) < nextAttempt cb) ->
    run_states (failing_calls errors cb h) = [] /\
    run_breakers (failing_calls errors cb h) = repeat cb (List.length errors).
Proof.
  induction errors as [| e rest IH]; intros cb h Hs Hclk.
  - split; reflexivity.
  - destruct (failing_calls_cons e rest cb h) as [Hst Hbr].
    assert (Hnow : now h < nextAttempt cb).
    { unfold now. rewrite <- (Nat.add_0_r (clock_reads h)).
      apply Hclk. simpl. lia. }
    destruct (failing_call_rejected e cb h Hs Hnow) as [Hx Hxs].
    rewrite Hst, Hbr, Hxs, Hx. unfold breaker_of, host_of. simpl fst. simpl snd.
    destruct (IH cb (tick h) Hs) as [IH1 IH2].
    { intros k Hk. simpl. rewrite <- Nat.add_succ_r.
      apply Hclk. simpl. lia. }
    rewrite IH1, IH2. split; reflexivity.
Qed.

Lemma failing_calls_from_CLOSED errors :
  forall cb h,
    state cb = CLOSED ->
    failureCount cb < threshold cb ->
    threshold cb - failureCount cb <= Z.of_nat (List.length errors) ->
    (forall k, (1 <= k)%nat ->
               Z.of_nat k <= Z.of_nat (List.length errors)
                             - (threshold cb - failureCount cb) ->
               clock h (clock_reads h + k) < now h + timeout cb) ->
    entries_into_OPEN CLOSED (run_states (failing_calls errors cb h)) = 1%nat /\
    forall i cbi,
      nth_error (run_breakers (failing_calls errors cb h)) i = Some cbi ->
      if failureCount cb + Z.of_nat (S i) <? threshold cb
      then state cbi = CLOSED /\ failureCount cbi = failureCount cb + Z.of_nat (S i)
      else state cbi = OPEN /\ failureCount cbi = threshold cb /\
           nextAttempt cbi = now h + timeout cb.
Proof.
  induction errors as [| e rest IH]; intros cb h Hs Hlt Hlen Hclk.
  - simpl in Hlen. lia.
  - destruct (failing_calls_cons e rest cb h) as [Hst Hbr].
    rewrite Hst, Hbr. clear Hst Hbr.
    destruct (Z_lt_le_dec (failureCount cb + 1) (threshold cb)) as [Hb | Ht].
    + destruct (failing_call_below e cb h Hs Hb) as [Hx Hxs].
      rewrite Hxs, Hx. unfold breaker_of, host_of. simpl fst. simpl snd.
      set (cb' := {| failureCount := failureCount cb + 1; successCount := 0;
                     state := CLOSED; nextAttempt := nextAttempt cb;
                     threshold := threshold cb; timeout := timeout cb;
                     successThreshold := successThreshold cb |}).
      destruct (IH cb' h) as [IH1 IH2]; try reflexivity.
      * simpl. exact Hb.
      * simpl. simpl List.length in Hlen. lia.
      * intros k Hk1 Hk2. simpl. apply Hclk; [exact Hk1 |].
        simpl in Hk2. simpl List.length. lia.
      * split; [simpl; exact IH1 |].
        intros [| j] cbi Hnth.
        -- simpl in Hnth. injection Hnth as <-.
           destruct (Z.ltb_spec (failureCount cb + Z.of_nat 1) (threshold cb));
             [simpl; split; [reflexivity | lia] | lia].
        -- simpl in Hnth. specialize (IH2 j cbi Hnth).
           cbn [cb' failureCount threshold timeout] in IH2.
           replace (failureCount cb + Z.of_nat (S (S j)))
             with (failureCount cb + 1 + Z.of_nat (S j)) by lia.
           destruct (failureCount cb + 1 + Z.of_nat (S j) <? threshold cb);
             intuition lia.
    + destruct (failing_call_trips e cb h Hs Ht) as [Hx Hxs].
      rewrite Hxs, Hx. unfold breaker_of, host_of. simpl fst. simpl snd.
      set (cb' := {| failureCount := failureCount cb + 1; successCount := 0;
                     state := OPEN; nextAttempt := now h + timeout cb;
                     threshold := threshold cb; timeout := timeout cb;
                     successThreshold := successThreshold cb |}).
      destruct (failing_calls_all_rejected rest cb' (tick h)) as [R1 R2];
        try reflexivity.
      * intros k Hk. simpl. rewrite <- Nat.add_succ_r.
        apply Hclk; [lia |]. simpl List.length. lia.
      * rewrite R1, R2. split; [reflexivity |].
        intros i cbi Hnth.
        assert (Hcbi : cbi = cb').
        { destruct i as [| j]; simpl in Hnth.
          - congruence.
          - apply nth_error_In in Hnth. apply repeat_spec in Hnth. exact Hnth. }
        subst cbi.
        destruct (Z.ltb_spec (failureCount cb + Z.of_nat (S i)) (threshold cb));
          [lia |]. simpl. repeat split; lia.
Qed.

End FailingRuns.

(** C6, as the spec words it, fails: when the fourth failing call comes
    after the cool-down, it is let through as a probe, fails, and the
    breaker enters OPEN a second time. *)
Lemma four_slow_failures_open_twice :
  let cb := fst (new_CircuitBreaker_default slow_host) in
  let h := snd (new_CircuitBreaker_default slow_host) in
  let errors := [boom; boom; boom; boom] in
  state cb = CLOSED /\ failureCount cb = 0 /\
  threshold cb <= Z.of_nat (List.length errors) /\
  run_states (failing_calls errors cb h)
    = [CLOSED; CLOSED; CLOSED; CLOSED; CLOSED; OPEN; HALF_OPEN; OPEN] /\
  entries_into_OPEN (state cb) (run_states (failing_calls errors cb h)) = 2%nat /\
  entries_into_OPEN (state cb) (run_states (failing_calls errors cb h)) <> 1%nat.
Proof.
  cbv zeta. repeat split; try reflexivity; vm_compute; discriminate.
Qed.

(** C6 (amended). Take a CLOSED breaker with no failure counted and a
    threshold of at least 1, and a run of N failing calls, N at least the
    threshold, in which every call made after the breaker tripped reads the
    clock before the cool-down is over.  Then the breaker enters OPEN exactly
    once over the run: it is CLOSED with [failureCount = i] after call i for
    i below the threshold, and OPEN from call number [threshold] on, with
    [nextAttempt] equal to the time read at that call plus the timeout. *)
Theorem threshold_failures_open_once :
  forall (errors : list Error) (cb : CircuitBreaker) (h : Host),
    state cb = CLOSED ->
    failureCount cb = 0 ->
    1 <= threshold cb ->
    threshold cb <= Z.of_nat (List.length errors) ->
    (forall k, (1 <= k)%nat ->
               Z.of_nat k <= Z.of_nat (List.length errors) - threshold cb ->
               clock h (clock_reads h + k) < now h + timeout cb) ->
    entries_into_OPEN (state cb) (run_states (failing_calls errors cb h)) = 1%nat /\
    List.length (run_breakers (failing_calls errors cb h)) = List.length errors /\
    forall i cbi,
      nth_error (run_breakers (failing_calls errors cb h)) i = Some cbi ->
      if Z.of_nat (S i) <? threshold cb
      then state cbi = CLOSED /\ failureCount cbi = Z.of_nat (S i)
      else state cbi = OPEN /\ failureCount cbi = threshold cb /\
           nextAttempt cbi = now h + timeout cb.
Proof.
  intros errors cb h Hs Hfc Hth Hlen Hclk.
  destruct (failing_calls_from_CLOSED errors cb h Hs) as [H1 H2]; try lia.
  { intros k Hk1 Hk2. apply Hclk; [exact Hk1 | lia]. }
  rewrite Hs. split; [exact H1 |]. split.
  - clear. revert cb h. induction errors as [| e rest IH]; intros cb h.
    + reflexivity.
    + destruct (failing_calls_cons e rest cb h) as [_ Hbr]. rewrite Hbr.
      simpl. f_equal. apply IH.
  - intros i cbi Hnth. specialize (H2 i cbi Hnth).
    rewrite Hfc in H2. rewrite Z.add_0_l in H2. exact H2.
Qed.

Lemma threshold_failures_open_once_witness :
  let cb := fst (new_CircuitBreaker_default frozen_host) in
  let h := snd (new_CircuitBreaker_default frozen_host) in
  let errors := [boom; boom; boom; boom; boom] in
  entries_into_OPEN (state cb) (run_states (failing_calls errors cb h)) = 1%nat /\
  List.length (run_breakers (failing_calls errors cb h)) = 5%nat /\
  forall i cbi,
    nth_error (run_breakers (failing_calls errors cb h)) i = Some cbi ->
    if Z.of_nat (S i) <? 3
    then state cbi = CLOSED /\ failureCount cbi = Z.of_nat (S i)
    else state cbi = OPEN /\ failureCount cbi = 3 /\ nextAttempt cbi = 6000.
Proof.
  cbv zeta.
  apply (threshold_failures_open_once [boom; boom; boom; boom; boom]
           (fst (new_CircuitBreaker_default frozen_host))
           (snd (new_CircuitBreaker_default frozen_host))).
  - reflexivity.
  - reflexivity.
  - simpl. lia.
  - simpl. lia.
  - intros k _ _. simpl. lia.
Defined.

(* ======================================================================= *)
(** ** The command service *)
(* ======================================================================= *)

Section CommandService.

Import TaskCommandService.

Lemma createTask_body_runs ttl prio store h :
  createTask_body ttl prio store h =
  (let task :=
     {| id := ("task_" ++ string_of_Z (now h) ++ "_"
               ++ random h (random_reads h))%string;
        title := ttl; status := pending; priority := prio;
        createdAt := now (tick h); updatedAt := now (tick (tick h)) |} in
   (Return task,
    store ++ [ {| type := TASK_CREATED; payload := task;
                  timestamp := now (tick (tick (tick h)));
                  aggregateId := id task |} ],
    tick (tick (tick (draw (tick h)))))).
Proof. reflexivity. Qed.

Lemma updateTaskStatus_body_runs task st store h :
  updateTaskStatus_body task st store h =
  (Return (with_status task st (now h)),
   store ++ [ {| type := update_event_type st;
                 payload := with_status task st (now h);
                 timestamp := now (tick h);
                 aggregateId := id task |} ],
   tick (tick h)).
Proof. reflexivity. Qed.

Lemma through_breaker_refused {T} (fn : Js (list DomainEvent) T) s h :
  admits (circuitBreaker s) h = false ->
  through_breaker fn s h = (Throw BreakerOpenError, s, tick h).
Proof.
  intros Ha. unfold through_breaker.
  rewrite (execute_refused _ _ fn _ _ _ Ha). destruct s; reflexivity.
Qed.

Lemma through_breaker_returns {T} (fn : Js (list DomainEvent) T) s h v w2 h2 :
  admits (circuitBreaker s) h = true ->
  fn (eventStore s) (after_gate (circuitBreaker s) h) = (Return v, w2, h2) ->
  exists cb1,
    gate (circuitBreaker s) h = (Return tt, cb1, after_gate (circuitBreaker s) h) /\
    through_breaker fn s h =
    (Return v, {| eventStore := w2; circuitBreaker := onSuccess cb1 |}, h2).
Proof.
  intros Ha Hf. destruct (gate_admits _ _ Ha) as (cb1 & Hg & _).
  exists cb1. split; [exact Hg |].
  unfold through_breaker.
  rewrite (execute_returns _ _ fn _ _ _ _ _ _ _ Hg Hf). reflexivity.
Qed.

Lemma updateTaskStatus_admitted task st s h :
  admits (circuitBreaker s) h = true ->
  exists cb1,
    gate (circuitBreaker s) h = (Return tt, cb1, after_gate (circuitBreaker s) h) /\
    updateTaskStatus task st s h =
    (Return (with_status task st (now (after_gate (circuitBreaker s) h))),
     {| eventStore :=
          eventStore s ++
          [ {| type := update_event_type st;
               payload := with_status task st (now (after_gate (circuitBreaker s) h));
               timestamp := now (tick (after_gate (circuitBreaker s) h));
               aggregateId := id task |} ];
        circuitBreaker := onSuccess cb1 |},
     tick (tick (after_gate (circuitBreaker s) h))).
Proof.
  intros Ha. unfold updateTaskStatus.
  apply through_breaker_returns; [exact Ha |].
  apply updateTaskStatus_body_runs.
Qed.

Lemma updateTaskStatus_refused task st s h :
  admits (circuitBreaker s) h = false ->
  updateTaskStatus task st s h = (Throw BreakerOpenError, s, tick h).
Proof. apply through_breaker_refused. Qed.

Lemma createTask_refused ttl prio s h :
  admits (circuitBreaker s) h = false ->
  createTask ttl prio s h = (Throw BreakerOpenError, s, tick h).
Proof. apply through_breaker_refused. Qed.

Lemma createTask_admitted ttl prio s h :
  admits (circuitBreaker s) h = true ->
  exists cb1 task ts h2,
    gate (circuitBreaker s) h = (Return tt, cb1, after_gate (circuitBreaker s) h) /\
    createTask ttl prio s h =
    (Return task,
     {| eventStore :=
          eventStore s ++
          [ {| type := TASK_CREATED; payload := task; timestamp := ts;
               aggregateId := id task |} ];
        circuitBreaker := onSuccess cb1 |}, h2) /\
    title task = ttl /\ priority task = prio /\ status task = pending.
Proof.
  intros Ha. unfold createTask.
  destruct (through_breaker_returns (createTask_body ttl prio) s h _ _ _ Ha
              (createTask_body_runs ttl prio _ _)) as (cb1 & Hg & Hx).
  eexists cb1, _, _, _. split; [exact Hg |]. split; [exact Hx |].
  repeat split.
Qed.

End CommandService.

(* ======================================================================= *)
(** ** The service that stores its tasks *)
(* ======================================================================= *)

Section StoringService.

Import TaskService.

Lemma store_createTask_body_runs ttl prio st h :
  createTask_body ttl prio st h =
  (let task :=
     {| id := ("task_" ++ string_of_Z (now h) ++ "_"
               ++ random h (random_reads h))%string;
        title := ttl; status := pending; priority := prio;
        createdAt := now (tick h); updatedAt := now (tick (tick h)) |} in
   (Return task,
    {| s_tasks := s_tasks st ++ [task];
       s_events := s_events st ++
         [ {| type := TASK_CREATED; payload := task;
              timestamp := now (tick (tick (tick h)));
              aggregateId := id task |} ] |},
    tick (tick (tick (draw (tick h)))))).
Proof. reflexivity. Qed.

Lemma store_updateTaskStatus_body_missing taskId status st h :
  find (fun t => String.eqb (id t) taskId) (s_tasks st) = None ->
  updateTaskStatus_body taskId status st h = (Throw TaskNotFoundError, st, h).
Proof.
  intros Hf. unfold updateTaskStatus_body, bind, sleep, ret, find_task.
  rewrite Hf. reflexivity.
Qed.

Lemma store_updateTaskStatus_body_found taskId status st h task :
  find (fun t => String.eqb (id t) taskId) (s_tasks st) = Some task ->
  updateTaskStatus_body taskId status st h =
  (Return (with_status task status (now h)),
   {| s_tasks := List.map (fun t => if String.eqb (id t) taskId
                                    then with_status task status (now h) else t)
                          (s_tasks st);
      s_events := s_events st ++
        [ {| type := update_event_type status;
             payload := with_status task status (now h);
             timestamp := now (tick h);
             aggregateId := id task |} ] |},
   tick (tick h)).
Proof.
  intros Hf. unfold updateTaskStatus_body, bind, sleep, ret, find_task.
  rewrite Hf. reflexivity.
Qed.

Lemma store_through_breaker_refused {T} (fn : Js Stores T) s h :
  admits (circuitBreaker s) h = false ->
  through_breaker fn s h = (Throw BreakerOpenError, s, tick h).
Proof.
  intros Ha. unfold through_breaker.
  rewrite (execute_refused _ _ fn _ _ _ Ha). destruct s; reflexivity.
Qed.

Lemma store_through_breaker_returns {T} (fn : Js Stores T) s h v w2 h2 :
  admits (circuitBreaker s) h = true ->
  fn {| s_tasks := tasks s; s_events := eventStore s |}
     (after_gate (circuitBreaker s) h) = (Return v, w2, h2) ->
  exists cb1,
    gate (circuitBreaker s) h = (Return tt, cb1, after_gate (circuitBreaker s) h) /\
    through_breaker fn s h =
    (Return v, {| tasks := s_tasks w2; eventStore := s_events w2;
                  circuitBreaker := onSuccess cb1 |}, h2).
Proof.
  intros Ha Hf. destruct (gate_admits _ _ Ha) as (cb1 & Hg & _).
  exists cb1. split; [exact Hg |].
  unfold through_breaker.
  rewrite (execute_returns _ _ fn _ _ _ _ _ _ _ Hg Hf). reflexivity.
Qed.

Lemma store_through_breaker_throws {T} (fn : Js Stores T) s h e w2 h2 :
  admits (circuitBreaker s) h = true ->
  fn {| s_tasks := tasks s; s_events := eventStore s |}
     (after_gate (circuitBreaker s) h) = (Throw e, w2, h2) ->
  exists cb1,
    gate (circuitBreaker s) h = (Return tt, cb1, after_gate (circuitBreaker s) h) /\
    state cb1 <> OPEN /\
    failureCount cb1 = failureCount (circuitBreaker s) /\
    threshold cb1 = threshold (circuitBreaker s) /\
    timeout cb1 = timeout (circuitBreaker s) /\
    through_breaker fn s h =
    (Throw e, {| tasks := s_tasks w2; eventStore := s_events w2;
                 circuitBreaker := fst (onFailure cb1 h2) |},
     snd (onFailure cb1 h2)).
Proof.
  intros Ha Hf.
  destruct (gate_admits _ _ Ha) as (cb1 & Hg & Hn & Hfc & _ & Hth & Hto & _).
  exists cb1. repeat (split; [assumption |]).
  unfold through_breaker.
  rewrite (execute_throws _ _ fn _ _ _ _ _ _ _ Hg Hf). reflexivity.
Qed.

End StoringService.

(* ======================================================================= *)
(** ** Events and results of the two commands *)
(* ======================================================================= *)

(** C4. In both services, a [createTask] or [updateTaskStatus] call that
    returns a task has appended exactly one event to the log, whose payload
    is the returned task and whose [aggregateId] is the payload's id; a call
    that throws, whether the breaker rejected it or the operation failed,
    leaves the log as it was. *)
Theorem one_event_per_successful_command :
  forall (ttl : string) (prio : TaskPriority) (task : Task) (st : TaskStatus)
         (taskId : string) (s : TaskCommandService.t) (s2 : TaskService.t)
         (h : Host),
    match TaskCommandService.createTask ttl prio s h with
    | (Return t', s', _) =>
        exists e, TaskCommandService.eventStore s'
                  = TaskCommandService.eventStore s ++ [e] /\
                  payload e = t' /\ aggregateId e = id (payload e)
    | (Throw _, s', _) =>
        TaskCommandService.eventStore s' = TaskCommandService.eventStore s
    end /\
    match TaskCommandService.updateTaskStatus task st s h with
    | (Return t', s', _) =>
        exists e, TaskCommandService.eventStore s'
                  = TaskCommandService.eventStore s ++ [e] /\
                  payload e = t' /\ aggregateId e = id (payload e)
    | (Throw _, s', _) =>
        TaskCommandService.eventStore s' = TaskCommandService.eventStore s
    end /\
    match TaskService.createTask ttl prio s2 h with
    | (Return t', s', _) =>
        exists e, TaskService.eventStore s' = TaskService.eventStore s2 ++ [e] /\
                  payload e = t' /\ aggregateId e = id (payload e)
    | (Throw _, s', _) => TaskService.eventStore s' = TaskService.eventStore s2
    end /\
    match TaskService.updateTaskStatus taskId st s2 h with
    | (Return t', s', _) =>
        exists e, TaskService.eventStore s' = TaskService.eventStore s2 ++ [e] /\
                  payload e = t' /\ aggregateId e = id (payload e)
    | (Throw _, s', _) => TaskService.eventStore s' = TaskService.eventStore s2
    end.
Proof.
  intros ttl prio task st taskId s s2 h.
  split; [| split; [| split]].
  - destruct (admits (TaskCommandService.circuitBreaker s) h) eqn:Ha.
    + destruct (createTask_admitted ttl prio s h Ha)
        as (cb1 & t' & ts & h2 & _ & Hx & _).
      rewrite Hx. eexists. simpl. repeat split.
    + rewrite (createTask_refused ttl prio s h Ha). reflexivity.
  - destruct (admits (TaskCommandService.circuitBreaker s) h) eqn:Ha.
    + destruct (updateTaskStatus_admitted task st s h Ha) as (cb1 & _ & Hx).
      rewrite Hx. eexists. simpl. repeat split.
    + rewrite (updateTaskStatus_refused task st s h Ha). reflexivity.
  - unfold TaskService.createTask.
    destruct (admits (TaskService.circuitBreaker s2) h) eqn:Ha.
    + destruct (store_through_breaker_returns
                  (TaskService.createTask_body ttl prio) s2 h _ _ _ Ha
                  (store_createTask_body_runs ttl prio _ _)) as (cb1 & _ & Hx).
      rewrite Hx. eexists. simpl. repeat split.
    + rewrite (store_through_breaker_refused _ s2 h Ha). reflexivity.
  - unfold TaskService.updateTaskStatus.
    destruct (admits (TaskService.circuitBreaker s2) h) eqn:Ha.
    + destruct (find (fun t => String.eqb (id t) taskId) (TaskService.tasks s2))
        as [found |] eqn:Hf.
      * destruct (store_through_breaker_returns
                    (TaskService.updateTaskStatus_body taskId st) s2 h _ _ _ Ha
                    (store_updateTaskStatus_body_found taskId st
                       {| TaskService.s_tasks := TaskService.tasks s2;
                          TaskService.s_events := TaskService.eventStore s2 |}
                       _ found Hf)) as (cb1 & _ & Hx).
        rewrite Hx. eexists. simpl. repeat split.
      * destruct (store_through_breaker_throws
                    (TaskService.updateTaskStatus_body taskId st) s2 h _ _ _ Ha
                    (store_updateTaskStatus_body_missing taskId st
                       {| TaskService.s_tasks := TaskService.tasks s2;
                          TaskService.s_events := TaskService.eventStore s2 |}
                       _ Hf)) as (cb1 & _ & _ & _ & _ & _ & Hx).
        rewrite Hx. reflexivity.
    + rewrite (store_through_breaker_refused _ s2 h Ha). reflexivity.
Qed.

(** C7. When [updateTaskStatus task status] of the command service returns a
    task, that task has the target status, its [updatedAt] is the time the
    operation read from the clock right after the breaker's gate, and its
    id, title, priority and [createdAt] are those of the input task. *)
Theorem updateTaskStatus_result :
  forall (task : Task) (st : TaskStatus) (s : TaskCommandService.t) (h : Host)
         (t' : Task) (s' : TaskCommandService.t) (h' : Host),
    TaskCommandService.updateTaskStatus task st s h = (Return t', s', h') ->
    status t' = st /\
    updatedAt t' = now (after_gate (TaskCommandService.circuitBreaker s) h) /\
    title t' = title task /\
    id t' = id task /\
    priority t' = priority task /\
    createdAt t' = createdAt task.
Proof.
  intros task st s h t' s' h' Hc.
  destruct (admits (TaskCommandService.circuitBreaker s) h) eqn:Ha.
  - destruct (updateTaskStatus_admitted task st s h Ha) as (cb1 & _ & Hx).
    rewrite Hx in Hc. injection Hc as <- _ _. repeat split.
  - rewrite (updateTaskStatus_refused task st s h Ha) in Hc. discriminate.
Qed.

Lemma updateTaskStatus_result_witness :
  let s := fst (TaskCommandService.new slow_host) in
  let h := snd (TaskCommandService.new slow_host) in
  let t' := with_status sample_task in_progress 10000 in
  fst (fst (TaskCommandService.updateTaskStatus sample_task in_progress s h))
    = Return t' /\
  status t' = in_progress /\ updatedAt t' = 10000 /\
  title t' = "write report" /\ id t' = "task_7_abc" /\
  priority t' = high /\ createdAt t' = 7.
Proof.
  cbv zeta. split; [reflexivity |].
  exact (updateTaskStatus_result sample_task in_progress
           (fst (TaskCommandService.new slow_host))
           (snd (TaskCommandService.new slow_host))
           (with_status sample_task in_progress 10000) _ _ eq_refl).
Defined.

(** C8. When [updateTaskStatus] returns, in the command service and in the
    service that stores its tasks alike, the event it appended has type
    TASK_COMPLETED exactly when the new status is [completed] and type
    TASK_UPDATED for every other status, [failed] included; its type is
    never TASK_FAILED. *)
Theorem event_type_of_update :
  forall (st : TaskStatus),
    (forall (task : Task) (s : TaskCommandService.t) (h : Host)
            (t' : Task) (s' : TaskCommandService.t) (h' : Host),
        TaskCommandService.updateTaskStatus task st s h = (Return t', s', h') ->
        exists e,
          TaskCommandService.eventStore s'
            = TaskCommandService.eventStore s ++ [e] /\
          (type e = TASK_COMPLETED <-> st = completed) /\
          (st <> completed -> type e = TASK_UPDATED) /\
          type e <> TASK_FAILED) /\
    (forall (taskId : string) (s : TaskService.t) (h : Host)
            (t' : Task) (s' : TaskService.t) (h' : Host),
        TaskService.updateTaskStatus taskId st s h = (Return t', s', h') ->
        exists e,
          TaskService.eventStore s' = TaskService.eventStore s ++ [e] /\
          (type e = TASK_COMPLETED <-> st = completed) /\
          (st <> completed -> type e = TASK_UPDATED) /\
          type e <> TASK_FAILED).
Proof.
  intros st.
  assert (Hty : (update_event_type st = TASK_COMPLETED <-> st = completed) /\
                (st <> completed -> update_event_type st = TASK_UPDATED) /\
                update_event_type st <> TASK_FAILED).
  { destruct st; unfold update_event_type; simpl;
      repeat split; intros; congruence. }
  split.
  - intros task s h t' s' h' Hc.
    destruct (admits (TaskCommandService.circuitBreaker s) h) eqn:Ha.
    + destruct (updateTaskStatus_admitted task st s h Ha) as (cb1 & _ & Hx).
      rewrite Hx in Hc. injection Hc as _ <- _.
      eexists. split; [reflexivity |]. exact Hty.
    + rewrite (updateTaskStatus_refused task st s h Ha) in Hc. discriminate.
  - intros taskId s h t' s' h' Hc. unfold TaskService.updateTaskStatus in Hc.
    destruct (admits (TaskService.circuitBreaker s) h) eqn:Ha.
    + destruct (find (fun t => String.eqb (id t) taskId) (TaskService.tasks s))
        as [found |] eqn:Hf.
      * destruct (store_through_breaker_returns
                    (TaskService.updateTaskStatus_body taskId st) s h _ _ _ Ha
                    (store_updateTaskStatus_body_found taskId st
                       {| TaskService.s_tasks := TaskService.tasks s;
                          TaskService.s_events := TaskService.eventStore s |}
                       _ found Hf)) as (cb1 & _ & Hx).
        rewrite Hx in Hc. injection Hc as _ <- _.
        eexists. split; [reflexivity |]. exact Hty.
      * destruct (store_through_breaker_throws
                    (TaskService.updateTaskStatus_body taskId st) s h _ _ _ Ha
                    (store_updateTaskStatus_body_missing taskId st
                       {| TaskService.s_tasks := TaskService.tasks s;
                          TaskService.s_events := TaskService.eventStore s |}
                       _ Hf)) as (cb1 & _ & _ & _ & _ & _ & Hx).
        rewrite Hx in Hc. discriminate.
    + rewrite (store_through_breaker_refused _ s h Ha) in Hc. discriminate.
Qed.

Lemma stocked_id_value : stocked_id = "task_10000_k3j9x0q2a".
Proof. reflexivity. Qed.

Lemma event_type_of_update_witness :
  (exists e,
      TaskCommandService.eventStore
        (snd (fst (TaskCommandService.updateTaskStatus sample_task failed
                     (fst (TaskCommandService.new slow_host))
                     (snd (TaskCommandService.new slow_host)))))
      = [] ++ [e] /\ type e = TASK_UPDATED) /\
  (exists e,
      TaskService.eventStore
        (snd (fst (TaskService.updateTaskStatus stocked_id failed
                     (fst stocked_service) (snd stocked_service))))
      = TaskService.eventStore (fst stocked_service) ++ [e] /\
      type e = TASK_UPDATED).
Proof.
  destruct (event_type_of_update failed) as [A B]. split.
  - destruct (A sample_task (fst (TaskCommandService.new slow_host))
                (snd (TaskCommandService.new slow_host)) _ _ _ eq_refl)
      as (e & He & _ & Hu & _).
    exists e. split; [exact He | apply Hu; discriminate].
  - destruct (B stocked_id (fst stocked_service) (snd stocked_service)
                _ _ _ eq_refl) as (e & He & _ & Hu & _).
    exists e. split; [exact He | apply Hu; discriminate].
Defined.

(** C10. [updateTaskStatus] of the command service looks nothing up: for
    every task value and every status, a call the breaker lets through
    returns a task and appends one event, of type TASK_UPDATED or
    TASK_COMPLETED, whose [aggregateId] is the id of the task passed in.  So
    when the log holds no TASK_CREATED event of that id, it afterwards holds
    an update of an aggregate that nothing created. *)
Theorem update_needs_no_created_task :
  forall (task : Task) (st : TaskStatus) (s : TaskCommandService.t) (h : Host),
    admits (TaskCommandService.circuitBreaker s) h = true ->
    exists t' e s' h',
      TaskCommandService.updateTaskStatus task st s h = (Return t', s', h') /\
      TaskCommandService.eventStore s' = TaskCommandService.eventStore s ++ [e] /\
      aggregateId e = id task /\
      (type e = TASK_UPDATED \/ type e = TASK_COMPLETED) /\
      ((forall c, In c (TaskCommandService.eventStore s) ->
                  type c = TASK_CREATED -> aggregateId c <> id task) ->
       orphan_update (TaskCommandService.eventStore s')).
Proof.
  intros task st s h Ha.
  destruct (updateTaskStatus_admitted task st s h Ha) as (cb1 & _ & Hx).
  eexists _, _, _, _. split; [exact Hx |].
  assert (Hty : update_event_type st = TASK_UPDATED \/
                update_event_type st = TASK_COMPLETED).
  { destruct st; unfold update_event_type; simpl; auto. }
  split; [reflexivity |]. split; [reflexivity |]. split; [exact Hty |].
  intros Hnone. simpl.
  exists (TaskCommandService.eventStore s). eexists. exists [].
  split; [reflexivity |]. split; [exact Hty |]. exact Hnone.
Qed.

Lemma update_needs_no_created_task_witness :
  admits (TaskCommandService.circuitBreaker (fst (TaskCommandService.new slow_host)))
         (snd (TaskCommandService.new slow_host)) = true /\
  orphan_update
    (TaskCommandService.eventStore
       (snd (fst (TaskCommandService.updateTaskStatus sample_task completed
                    (fst (TaskCommandService.new slow_host))
                    (snd (TaskCommandService.new slow_host)))))).
Proof.
  split; [reflexivity |].
  destruct (update_needs_no_created_task sample_task completed
              (fst (TaskCommandService.new slow_host))
              (snd (TaskCommandService.new slow_host)) eq_refl)
    as (t' & e & s' & h' & Hx & _ & _ & _ & Ho).
  rewrite Hx. simpl. apply Ho. intros c [].
Defined.

(* ======================================================================= *)
(** ** Looking up an id the service does not hold *)
(* ======================================================================= *)

(** C3, as the spec words it, fails: the lookup happens inside the
    operation the breaker guards, so a miss is a failure the breaker counts.
    On a new service one miss raises [failureCount] to 1; three misses leave
    the breaker OPEN, and the next call fails with the breaker's error
    instead of the lookup's. *)
Lemma missing_id_counts_as_failure :
  let s0 := fst (TaskService.new frozen_host) in
  let h0 := snd (TaskService.new frozen_host) in
  let r1 := TaskService.updateTaskStatus "task_7_abc" completed s0 h0 in
  let r4 := TaskService.updateTaskStatus "task_7_abc" completed
              (fst thrice_missed) (snd thrice_missed) in
  find (fun t => String.eqb (id t) "task_7_abc") (TaskService.tasks s0) = None /\
  fst (fst r1) = Throw TaskService.TaskNotFoundError /\
  failureCount (TaskService.circuitBreaker s0) = 0 /\
  failureCount (TaskService.circuitBreaker (snd (fst r1))) = 1 /\
  TaskService.circuitBreaker (snd (fst r1)) <> TaskService.circuitBreaker s0 /\
  state (TaskService.circuitBreaker (fst thrice_missed)) = OPEN /\
  fst (fst r4) = Throw BreakerOpenError.
Proof.
  cbv zeta. repeat split; try reflexivity. vm_compute. discriminate.
Qed.

(** C3 (amended). [updateTaskStatus] of the storing service, called with an
    id that is not in the store, always throws, appends no event and leaves
    the task collection unchanged.  When the breaker lets the call through,
    the error is the lookup's "Task not found" and the breaker records a
    failure: [successCount] becomes 0, [failureCount] grows by one, and the
    breaker opens when the threshold is reached.  When the breaker rejects
    the call, the error is the breaker's and the breaker is unchanged. *)
Theorem missing_id_update :
  forall (taskId : string) (st : TaskStatus) (s : TaskService.t) (h : Host),
    find (fun t => String.eqb (id t) taskId) (TaskService.tasks s) = None ->
    let r := TaskService.updateTaskStatus taskId st s h in
    let cb := TaskService.circuitBreaker s in
    let cb' := TaskService.circuitBreaker (snd (fst r)) in
    TaskService.tasks (snd (fst r)) = TaskService.tasks s /\
    TaskService.eventStore (snd (fst r)) = TaskService.eventStore s /\
    if admits cb h
    then fst (fst r) = Throw TaskService.TaskNotFoundError /\
         successCount cb' = 0 /\
         failureCount cb' = failureCount cb + 1 /\
         (threshold cb <= failureCount cb + 1 ->
          state cb' = OPEN /\
          nextAttempt cb' = now (after_gate cb h) + timeout cb)
    else fst (fst r) = Throw BreakerOpenError /\ cb' = cb.
Proof.
  intros taskId st s h Hf. cbv zeta. unfold TaskService.updateTaskStatus.
  destruct (admits (TaskService.circuitBreaker s) h) eqn:Ha.
  - destruct (store_through_breaker_throws
                (TaskService.updateTaskStatus_body taskId st) s h _ _ _ Ha
                (store_updateTaskStatus_body_missing taskId st
                   {| TaskService.s_tasks := TaskService.tasks s;
                      TaskService.s_events := TaskService.eventStore s |}
                   _ Hf)) as (cb1 & _ & _ & Hfc & Hth & Hto & Hx).
    rewrite Hx. simpl. split; [reflexivity |]. split; [reflexivity |].
    split; [reflexivity |].
    unfold onFailure. rewrite Hfc, Hth, Hto.
    destruct (Z.leb_spec (threshold (TaskService.circuitBreaker s))
                         (failureCount (TaskService.circuitBreaker s) + 1));
      simpl; repeat split; try reflexivity; intros; lia.
  - rewrite (store_through_breaker_refused _ s h Ha). simpl.
    repeat split.
Qed.

Lemma missing_id_update_witness :
  let s := fst (TaskService.new frozen_host) in
  let h := snd (TaskService.new frozen_host) in
  let r := TaskService.updateTaskStatus "task_7_abc" completed s h in
  TaskService.tasks (snd (fst r)) = [] /\
  TaskService.eventStore (snd (fst r)) = [] /\
  fst (fst r) = Throw TaskService.TaskNotFoundError /\
  successCount (TaskService.circuitBreaker (snd (fst r))) = 0 /\
  failureCount (TaskService.circuitBreaker (snd (fst r))) = 1.
Proof.
  cbv zeta.
  pose proof (missing_id_update "task_7_abc" completed
                (fst (TaskService.new frozen_host))
                (snd (TaskService.new frozen_host)) eq_refl) as H.
  cbv zeta in H. destruct H as (H1 & H2 & H3).
  split; [exact H1 |]. split; [exact H2 |].
  change (admits (TaskService.circuitBreaker (fst (TaskService.new frozen_host)))
                 (snd (TaskService.new frozen_host))) with true in H3.
  destruct H3 as (H3 & H4 & H5 & _).
  split; [exact H3 |]. split; [exact H4 | exact H5].
Defined.

(* ======================================================================= *)
(** ** The read side: recent events *)
(* ======================================================================= *)

Lemma slice_nonnegative {A} (l : list A) (start : Z) :
  0 <= start -> TaskQueryService.slice l start = skipn (Z.to_nat start) l.
Proof.
  intros Hs. unfold TaskQueryService.slice.
  destruct (Z.ltb_spec start 0); [lia |].
  destruct (Z_le_gt_dec start (Z.of_nat (List.length l))) as [Hle | Hgt].
  - rewrite Z.min_l by lia. reflexivity.
  - rewrite Z.min_r by lia. rewrite Nat2Z.id.
    rewrite skipn_all. symmetry. apply skipn_all2. lia.
Qed.

(** C2. The code does not do what the claim says.  For a limit of 0 or
    below, [getRecentEvents] returns, most recent first, all the events but
    the first [-limit]: with a limit of 0 that is the whole log reversed, not
    an empty sequence. *)
Theorem getRecentEvents_nonpositive_limit :
  forall (events : list DomainEvent) (limit : Z),
    limit <= 0 ->
    TaskQueryService.getRecentEvents events limit
    = rev (skipn (Z.to_nat (- limit)) events) /\
    TaskQueryService.getRecentEvents events 0 = rev events.
Proof.
  intros events limit Hl. unfold TaskQueryService.getRecentEvents.
  split.
  - rewrite slice_nonnegative by lia. reflexivity.
  - rewrite slice_nonnegative by lia. reflexivity.
Qed.

Lemma getRecentEvents_nonpositive_limit_witness :
  let e1 := {| type := TASK_CREATED; payload := sample_task;
               timestamp := 7; aggregateId := "task_7_abc" |} in
  let e2 := {| type := TASK_COMPLETED;
               payload := with_status sample_task completed 9;
               timestamp := 9; aggregateId := "task_7_abc" |} in
  0 <= 0 /\
  TaskQueryService.getRecentEvents [e1; e2] 0 = [e2; e1] /\
  TaskQueryService.getRecentEvents [e1; e2] 0 <> [].
Proof.
  cbv zeta. split; [lia |].
  destruct (getRecentEvents_nonpositive_limit
              [ {| type := TASK_CREATED; payload := sample_task;
                   timestamp := 7; aggregateId := "task_7_abc" |};
                {| type := TASK_COMPLETED;
                   payload := with_status sample_task completed 9;
                   timestamp := 9; aggregateId := "task_7_abc" |} ] 0)
    as [_ H]; [lia |].
  split; [exact H |]. rewrite H. discriminate.
Defined.

(** With a limit above 0 the same code keeps the last [limit] events, or all
    of them when there are fewer. *)
Lemma getRecentEvents_positive_limit (events : list DomainEvent) (limit : Z) :
  0 < limit ->
  TaskQueryService.getRecentEvents events limit
  = rev (skipn (List.length events - Z.to_nat limit) events).
Proof.
  intros Hl. unfold TaskQueryService.getRecentEvents, TaskQueryService.slice.
  destruct (Z.ltb_spec (- limit) 0); [| lia].
  f_equal. f_equal. lia.
Qed.

(** A threshold of 0 is met by a run of no call at all, which opens
    nothing; hence the threshold of at least 1 in the statement above. *)
Remark empty_run_never_opens :
  let cb := fst (new_CircuitBreaker 0 5000 2 frozen_host) in
  let h := snd (new_CircuitBreaker 0 5000 2 frozen_host) in
  threshold cb <= Z.of_nat (List.length (@nil Error)) /\
  entries_into_OPEN (state cb) (run_states (failing_calls [] cb h)) = 0%nat.
Proof. split; [simpl; lia | reflexivity]. Qed.

(* ======================================================================= *)
(** ** More on the circuit breaker *)
(* ======================================================================= *)

(** X1. [execute] hands the operation's outcome through untouched: when the
    gate lets the call in, the caller gets exactly what the operation
    returned or threw and the objects are as the operation left them; when
    it does not, the caller gets the breaker's error and neither the objects
    nor the breaker have changed. *)
Theorem execute_propagates_outcome :
  forall (W T : Type) (fn : Js W T) (cb : CircuitBreaker) (w : W) (h : Host),
    let r := execute fn cb w h in
    if admits cb h
    then completion_of r = fst (fst (fn w (after_gate cb h))) /\
         world_of r = snd (fst (fn w (after_gate cb h)))
    else completion_of r = Throw BreakerOpenError /\
         world_of r = w /\ breaker_of r = cb.
Proof.
  intros W T fn cb w h. cbv zeta.
  destruct (admits cb h) eqn:Ha.
  - destruct (gate_admits cb h Ha) as (cb1 & Hg & _).
    unfold execute. rewrite Hg.
    destruct (fn w (after_gate cb h)) as [[[v | e] w2] h2]; simpl.
    + split; reflexivity.
    + destruct (onFailure cb1 h2). split; reflexivity.
  - rewrite (execute_refused W T fn cb w h Ha). repeat split.
Qed.

(** X2. No call changes the configuration of a breaker, and a call changes
    [nextAttempt] only when it leaves the breaker OPEN. *)
Theorem execute_keeps_configuration :
  forall (W T : Type) (fn : Js W T) (cb : CircuitBreaker) (w : W) (h : Host),
    let cb' := breaker_of (execute fn cb w h) in
    threshold cb' = threshold cb /\
    timeout cb' = timeout cb /\
    successThreshold cb' = successThreshold cb /\
    (nextAttempt cb' = nextAttempt cb \/ state cb' = OPEN).
Proof.
  intros W T fn cb w h. cbv zeta. unfold breaker_of, execute, gate.
  destruct (state cb) eqn:Hs.
  - destruct (fn w h) as [[[v | e] w2] h2]; simpl.
    + unfold onSuccess. simpl. rewrite Hs. simpl. auto.
    + unfold onFailure.
      destruct (threshold cb <=? failureCount cb + 1); simpl; auto.
  - destruct (now h <? nextAttempt cb); simpl; [auto |].
    destruct (fn w (tick h)) as [[[v | e] w2] h2]; simpl.
    + unfold onSuccess. simpl.
      destruct (successThreshold cb <=? successCount cb + 1); simpl; auto.
    + unfold onFailure. simpl.
      destruct (threshold cb <=? failureCount cb + 1); simpl; auto.
  - destruct (fn w h) as [[[v | e] w2] h2]; simpl.
    + unfold onSuccess. simpl. rewrite Hs.
      destruct (successThreshold cb <=? successCount cb + 1); simpl; auto.
    + unfold onFailure.
      destruct (threshold cb <=? failureCount cb + 1); simpl; auto.
Qed.

(** What holds of the counters of a breaker between two calls. *)
Lemma counters_between_calls cb :
  reachable cb ->
  0 <= failureCount cb /\ 0 <= successCount cb /\
  (state cb = CLOSED ->
   successCount cb = 0 /\ (failureCount cb = 0 \/ failureCount cb < threshold cb)) /\
  (state cb = HALF_OPEN ->
   successCount cb = 0 \/ successCount cb < successThreshold cb) /\
  (state cb = OPEN -> threshold cb <= failureCount cb /\ successCount cb = 0).
Proof.
  induction 1 as [th tmo sth h | W T fn cb w h Hr IH].
  - simpl. repeat split; try lia; try discriminate; auto.
  - destruct IH as (Hf & Hsc & Hc & Hh & Ho).
    unfold breaker_of, execute, gate.
    destruct (state cb) eqn:Hs.
    + destruct (Hc eq_refl) as [Hc1 Hc2].
      destruct (fn w h) as [[[v | e] w2] h2]; simpl.
      * unfold onSuccess. simpl. rewrite Hs. simpl.
        repeat split; try lia; try discriminate; auto.
      * unfold onFailure.
        destruct (Z.leb_spec (threshold cb) (failureCount cb + 1)); simpl;
          rewrite ?Hs; repeat split; try lia; try discriminate; auto; intros; lia.
    + destruct (Ho eq_refl) as [Ho1 Ho2].
      destruct (now h <? nextAttempt cb); simpl.
      * rewrite Hs. repeat split; try lia; try discriminate; auto.
      * destruct (fn w (tick h)) as [[[v | e] w2] h2]; simpl.
        -- unfold onSuccess. simpl.
           destruct (Z.leb_spec (successThreshold cb) (successCount cb + 1));
             simpl; repeat split; try lia; try discriminate; auto; intros; lia.
        -- unfold onFailure. simpl.
           destruct (Z.leb_spec (threshold cb) (failureCount cb + 1)); simpl;
             repeat split; try lia; try discriminate; auto; intros; lia.
    + destruct (fn w h) as [[[v | e] w2] h2]; simpl.
      * unfold onSuccess. simpl. rewrite Hs.
        destruct (Z.leb_spec (successThreshold cb) (successCount cb + 1));
          simpl; repeat split; try lia; try discriminate; auto; intros; lia.
      * unfold onFailure.
        destruct (Z.leb_spec (threshold cb) (failureCount cb + 1)); simpl;
          rewrite ?Hs; repeat split; try lia; try discriminate; auto; intros; lia.
Qed.

(** X3. Between two calls the counters of a breaker are never negative; a
    CLOSED breaker counts no success and fewer failures than its threshold
    (or none), and a HALF_OPEN breaker counts fewer successes than its
    success threshold (or none). *)
Theorem counters_stay_in_range :
  forall cb : CircuitBreaker,
    reachable cb ->
    0 <= failureCount cb /\ 0 <= successCount cb /\
    (state cb = CLOSED ->
     successCount cb = 0 /\
     (failureCount cb = 0 \/ failureCount cb < threshold cb)) /\
    (state cb = HALF_OPEN ->
     successCount cb = 0 \/ successCount cb < successThreshold cb).
Proof.
  intros cb Hr.
  destruct (counters_between_calls cb Hr) as (H1 & H2 & H3 & H4 & _).
  repeat split; try assumption; apply H3; assumption.
Qed.

Lemma counters_stay_in_range_witness :
  state (fst probed_breaker) = HALF_OPEN /\
  successCount (fst probed_breaker) = 1 /\
  0 <= failureCount (fst probed_breaker) /\
  (successCount (fst probed_breaker) = 0 \/
   successCount (fst probed_breaker) < successThreshold (fst probed_breaker)).
Proof.
  split; [reflexivity |]. split; [reflexivity |].
  assert (Hr : reachable (fst probed_breaker)).
  { unfold probed_breaker. simpl fst. do 4 apply reachable_execute.
    apply (reachable_new 3 5000 2 slow_host). }
  destruct (counters_stay_in_range (fst probed_breaker) Hr) as (H1 & _ & _ & H4).
  split; [exact H1 | apply H4; reflexivity].
Defined.

Section Runs.

Lemma run_calls_cons o rest cb h :
  let r := execute (outcome_op o) cb tt h in
  let rr := run_calls rest (breaker_of r) (host_of r) in
  run_calls (o :: rest) cb h
  = (completion_of r :: fst (fst rr), snd (fst rr), snd rr).
Proof.
  cbv zeta. simpl. destruct (run_calls rest _ _) as [[cs cb'] h']. reflexivity.
Qed.

Lemma success_when_passing cb h :
  state cb <> OPEN ->
  execute (outcome_op None) cb tt h = (Return tt, onSuccess cb, tt, h).
Proof.
  intros Hs. unfold execute. rewrite gate_passes by assumption. reflexivity.
Qed.

Lemma failure_when_passing e cb h :
  state cb <> OPEN ->
  execute (outcome_op (Some e)) cb tt h
  = (Throw e, fst (onFailure cb h), tt, snd (onFailure cb h)).
Proof.
  intros Hs. unfold execute. rewrite gate_passes by assumption. simpl.
  destruct (onFailure cb h). reflexivity.
Qed.

(** Successes in a row on a HALF_OPEN breaker, up to the success
    threshold. *)
Lemma successes_while_HALF_OPEN k :
  forall cb h,
    state cb = HALF_OPEN ->
    successCount cb + Z.of_nat (S k) <= successThreshold cb ->
    let r := run_calls (repeat None (S k)) cb h in
    fst (fst r) = repeat (Return tt) (S k) /\
    snd r = h /\
    failureCount (snd (fst r)) = 0 /\
    nextAttempt (snd (fst r)) = nextAttempt cb /\
    if successCount cb + Z.of_nat (S k) <? successThreshold cb
    then state (snd (fst r)) = HALF_OPEN /\
         successCount (snd (fst r)) = successCount cb + Z.of_nat (S k)
    else state (snd (fst r)) = CLOSED /\ successCount (snd (fst r)) = 0.
Proof.
  induction k as [| k IH]; intros cb h Hs Hle; cbv zeta.
  - change (repeat None 1) with [@None Error]. rewrite run_calls_cons.
    rewrite success_when_passing by congruence.
    unfold breaker_of, host_of, completion_of. simpl.
    unfold onSuccess. simpl. rewrite Hs.
    change (Z.pos (Pos.of_succ_nat 0)) with 1 in *.
    destruct (Z.leb_spec (successThreshold cb) (successCount cb + 1));
      destruct (Z.ltb_spec (successCount cb + 1) (successThreshold cb));
      simpl; try lia; repeat split.
  - change (repeat None (S (S k))) with (@None Error :: repeat None (S k)).
    rewrite run_calls_cons. rewrite success_when_passing by congruence.
    unfold breaker_of, host_of, completion_of. cbn [fst snd].
    assert (Hlt : successCount cb + 1 < successThreshold cb) by lia.
    assert (Hon : onSuccess cb =
                  {| failureCount := 0; successCount := successCount cb + 1;
                     state := HALF_OPEN; nextAttempt := nextAttempt cb;
                     threshold := threshold cb; timeout := timeout cb;
                     successThreshold := successThreshold cb |}).
    { unfold onSuccess. simpl. rewrite Hs.
      destruct (Z.leb_spec (successThreshold cb) (successCount cb + 1));
        [lia | reflexivity]. }
    rewrite Hon.
    match goal with
    | |- context [run_calls _ ?c _] => specialize (IH c h eq_refl)
    end.
    cbv zeta in IH. cbn [successCount successThreshold nextAttempt] in IH.
    destruct IH as (I1 & I2 & I3 & I4 & I5); [lia |].
    split; [cbn [fst]; rewrite I1; reflexivity |].
    split; [exact I2 |]. split; [exact I3 |]. split; [exact I4 |].
    replace (successCount cb + Z.of_nat (S (S k)))
      with (successCount cb + 1 + Z.of_nat (S k)) by lia.
    exact I5.
Qed.

End Runs.

(** X4. Recovery. Take a breaker that is OPEN between two calls, with a
    success threshold of at least 1, and let the cool-down be over.  After j
    successful calls in a row, j below the success threshold, it is HALF_OPEN
    with [successCount = j]; after as many as the success threshold it is
    CLOSED with both counters at 0.  Every one of these calls returns, and
    the clock is read once, by the gate of the first. *)
Theorem successes_close_the_breaker :
  forall (cb : CircuitBreaker) (h : Host) (j : nat),
    reachable cb ->
    state cb = OPEN ->
    nextAttempt cb <= now h ->
    (1 <= j)%nat ->
    Z.of_nat j <= successThreshold cb ->
    let r := run_calls (repeat None j) cb h in
    fst (fst r) = repeat (Return tt) j /\
    snd r = tick h /\
    failureCount (snd (fst r)) = 0 /\
    if Z.of_nat j <? successThreshold cb
    then state (snd (fst r)) = HALF_OPEN /\
         successCount (snd (fst r)) = Z.of_nat j
    else state (snd (fst r)) = CLOSED /\ successCount (snd (fst r)) = 0.
Proof.
  intros cb h j Hr Hs Hna Hj Hle. cbv zeta.
  destruct (reachable_OPEN cb Hr Hs) as [_ Hsc].
  destruct j as [| k]; [lia |].
  assert (Hfirst : execute (outcome_op None) cb tt h
                   = (Return tt, onSuccess (set_state HALF_OPEN cb), tt, tick h)).
  { unfold execute. rewrite (gate_probes cb h Hs Hna). reflexivity. }
  change (repeat None (S k)) with (@None Error :: repeat None k).
  rewrite run_calls_cons, Hfirst.
  unfold breaker_of, host_of, completion_of. cbn [fst snd].
  unfold onSuccess. cbn [state set_state successCount successThreshold
                         failureCount nextAttempt threshold timeout].
  rewrite Hsc.
  destruct (Z.leb_spec (successThreshold cb) (0 + 1)) as [Hc | Hc].
  - assert (k = 0%nat) by lia. subst k. simpl.
    destruct (Z.ltb_spec 1 (successThreshold cb)); [lia |]. repeat split.
  - destruct k as [| k].
    + simpl. destruct (Z.ltb_spec 1 (successThreshold cb)); [| lia].
      repeat split.
    + match goal with
      | |- context [run_calls _ ?c _] =>
          pose proof (successes_while_HALF_OPEN k c (tick h) eq_refl) as S
      end.
      cbv zeta in S. cbn [successCount successThreshold nextAttempt] in S.
      destruct S as (S1 & S2 & S3 & _ & S5); [lia |].
      split; [cbn [fst]; rewrite S1; reflexivity |].
      split; [exact S2 |]. split; [exact S3 |].
      replace (Z.of_nat (S (S k))) with (0 + 1 + Z.of_nat (S k)) by lia.
      exact S5.
Qed.

Lemma successes_close_the_breaker_witness :
  let cb := fst tripped_breaker in
  let h := tick (tick slow_host) in
  let r := run_calls [None; None] cb h in
  state cb = OPEN /\ nextAttempt cb <= now h /\
  fst (fst r) = [Return tt; Return tt] /\
  snd r = tick h /\
  failureCount (snd (fst r)) = 0 /\
  state (snd (fst r)) = CLOSED /\ successCount (snd (fst r)) = 0.
Proof.
  cbv zeta. split; [reflexivity |]. split; [vm_compute; discriminate |].
  apply (successes_close_the_breaker (fst tripped_breaker)
           (tick (tick slow_host)) 2 tripped_breaker_reachable eq_refl).
  - vm_compute. discriminate.
  - lia.
  - vm_compute. discriminate.
Defined.

(** X5. No trip without enough failures in a row. On a CLOSED breaker, a
    run of calls in which the number of consecutive failures, counted from
    the breaker's current [failureCount], never reaches the threshold leaves
    the breaker CLOSED: no call is rejected (each caller gets its own
    operation's outcome), the clock is never read and [nextAttempt] is
    untouched. *)
Theorem short_streaks_never_open :
  forall (outcomes : list (option Error)) (cb : CircuitBreaker) (h : Host),
    state cb = CLOSED ->
    streaks_below (threshold cb) (failureCount cb) outcomes = true ->
    let r := run_calls outcomes cb h in
    fst (fst r) = List.map bare_completion outcomes /\
    state (snd (fst r)) = CLOSED /\
    snd r = h /\
    nextAttempt (snd (fst r)) = nextAttempt cb /\
    threshold (snd (fst r)) = threshold cb.
Proof.
  induction outcomes as [| o rest IH]; intros cb h Hs Hst; cbv zeta.
  - simpl. repeat split. exact Hs.
  - rewrite run_calls_cons. destruct o as [e |].
    + simpl in Hst. apply andb_true_iff in Hst. destruct Hst as [Hlt Hst].
      apply Z.ltb_lt in Hlt.
      rewrite failure_when_passing by congruence.
      unfold breaker_of, host_of, completion_of. cbn [fst snd].
      unfold onFailure.
      destruct (Z.leb_spec (threshold cb) (failureCount cb + 1)); [lia |].
      cbn [fst snd].
      match goal with
      | |- context [run_calls _ ?c _] => specialize (IH c h)
      end.
      cbv zeta in IH. cbn [state failureCount threshold nextAttempt] in IH.
      destruct (IH Hs Hst) as (I1 & I2 & I3 & I4 & I5).
      split; [cbn [fst List.map bare_completion]; rewrite I1; reflexivity |].
      repeat split; assumption.
    + simpl in Hst.
      rewrite success_when_passing by congruence.
      unfold breaker_of, host_of, completion_of. cbn [fst snd].
      unfold onSuccess. cbn [state]. rewrite Hs.
      match goal with
      | |- context [run_calls _ ?c _] => specialize (IH c h)
      end.
      cbv zeta in IH. cbn [state failureCount threshold nextAttempt] in IH.
      destruct (IH eq_refl Hst) as (I1 & I2 & I3 & I4 & I5).
      split; [cbn [fst List.map bare_completion]; rewrite I1; reflexivity |].
      repeat split; assumption.
Qed.

Lemma short_streaks_never_open_witness :
  let cb := fst (new_CircuitBreaker_default frozen_host) in
  let h := snd (new_CircuitBreaker_default frozen_host) in
  let outcomes := [Some boom; Some boom; None; Some boom; Some boom; None] in
  let r := run_calls outcomes cb h in
  fst (fst r) = [Throw boom; Throw boom; Return tt;
                 Throw boom; Throw boom; Return tt] /\
  state (snd (fst r)) = CLOSED /\
  snd r = h /\
  nextAttempt (snd (fst r)) = nextAttempt cb /\
  threshold (snd (fst r)) = 3.
Proof.
  cbv zeta.
  exact (short_streaks_never_open
           [Some boom; Some boom; None; Some boom; Some boom; None]
           (fst (new_CircuitBreaker_default frozen_host))
           (snd (new_CircuitBreaker_default frozen_host)) eq_refl eq_refl).
Defined.

(* ======================================================================= *)
(** ** More on the read side *)
(* ======================================================================= *)

Lemma with_status_of_snoc st tasks t :
  List.length (TaskQueryService.with_status_of st (tasks ++ [t]))
  = (List.length (TaskQueryService.with_status_of st tasks)
     + (if TaskStatus_eqb (status t) st then 1 else 0))%nat.
Proof.
  unfold TaskQueryService.with_status_of.
  rewrite filter_app, length_app. simpl.
  destruct (TaskStatus_eqb (status t) st); reflexivity.
Qed.

(** X6. The four status counts of [getTaskMetrics] add up to the total, and
    neither the count of high-priority tasks nor any status count exceeds
    it. *)
Theorem metrics_partition_the_tasks :
  forall tasks : list Task,
    let m := TaskQueryService.getTaskMetrics tasks in
    (TaskQueryService.completed m + TaskQueryService.inProgress m
     + TaskQueryService.pending m + TaskQueryService.failed m
     = TaskQueryService.total m)%nat /\
    (TaskQueryService.highPriority m <= TaskQueryService.total m)%nat.
Proof.
  intros tasks. cbv zeta. unfold TaskQueryService.getTaskMetrics. simpl.
  unfold TaskQueryService.completed_tasks, TaskQueryService.in_progress_tasks,
    TaskQueryService.pending_tasks, TaskQueryService.failed_tasks,
    TaskQueryService.with_status_of, TaskQueryService.high_tasks.
  split.
  - induction tasks as [| t rest IH]; [reflexivity |].
    simpl. destruct (status t); simpl; lia.
  - induction tasks as [| t rest IH]; [reflexivity |].
    simpl. destruct (priority t); simpl; lia.
Qed.

(** X7. Adding one task to the collection, as the reducer does for ADD_TASK,
    raises the total by one and the count of that task's status by one,
    leaves the other three status counts alone, and raises the
    high-priority count exactly when the task has priority [high]. *)
Theorem metrics_after_ADD_TASK :
  forall (state : Presentation.AppState) (t : Task),
    let m := TaskQueryService.getTaskMetrics (Presentation.tasks state) in
    let m' := TaskQueryService.getTaskMetrics
                (Presentation.tasks
                   (Presentation.appReducer state (Presentation.ADD_TASK t))) in
    TaskQueryService.total m' = S (TaskQueryService.total m) /\
    TaskQueryService.completed m'
    = (TaskQueryService.completed m
       + if TaskStatus_eqb (status t) completed then 1 else 0)%nat /\
    TaskQueryService.inProgress m'
    = (TaskQueryService.inProgress m
       + if TaskStatus_eqb (status t) in_progress then 1 else 0)%nat /\
    TaskQueryService.pending m'
    = (TaskQueryService.pending m
       + if TaskStatus_eqb (status t) pending then 1 else 0)%nat /\
    TaskQueryService.failed m'
    = (TaskQueryService.failed m
       + if TaskStatus_eqb (status t) failed then 1 else 0)%nat /\
    TaskQueryService.highPriority m'
    = (TaskQueryService.highPriority m
       + match priority t with high => 1 | _ => 0 end)%nat.
Proof.
  intros state t. cbv zeta. unfold TaskQueryService.getTaskMetrics. simpl.
  unfold TaskQueryService.completed_tasks, TaskQueryService.in_progress_tasks,
    TaskQueryService.pending_tasks, TaskQueryService.failed_tasks.
  rewrite !with_status_of_snoc, length_app. simpl.
  split; [lia |]. repeat (split; [reflexivity |]).
  unfold TaskQueryService.high_tasks. rewrite filter_app, length_app. simpl.
  destruct (priority t); reflexivity.
Qed.

Lemma getRecentEvents_firstn (events : list DomainEvent) (limit : Z) :
  0 < limit ->
  TaskQueryService.getRecentEvents events limit
  = firstn (Z.to_nat limit) (rev events).
Proof.
  intros Hl. rewrite firstn_rev.
  unfold TaskQueryService.getRecentEvents, TaskQueryService.slice.
  destruct (Z.ltb_spec (- limit) 0); [| lia].
  f_equal. f_equal. lia.
Qed.

(** X8. With a limit above 0, [getRecentEvents] is the log read backwards
    and cut after [limit] events: it holds [min limit (length events)]
    events, and the whole log backwards when the log has no more than
    [limit] events. *)
Theorem getRecentEvents_takes_from_the_end :
  forall (events : list DomainEvent) (limit : Z),
    0 < limit ->
    TaskQueryService.getRecentEvents events limit
    = firstn (Z.to_nat limit) (rev events) /\
    List.length (TaskQueryService.getRecentEvents events limit)
    = Nat.min (Z.to_nat limit) (List.length events) /\
    (Z.of_nat (List.length events) <= limit ->
     TaskQueryService.getRecentEvents events limit = rev events).
Proof.
  intros events limit Hl.
  pose proof (getRecentEvents_firstn events limit Hl) as Heq.
  split; [exact Heq |]. split.
  - rewrite Heq, length_firstn, length_rev. reflexivity.
  - intros Hle. rewrite Heq. apply firstn_all2. rewrite length_rev. lia.
Qed.

Lemma getRecentEvents_takes_from_the_end_witness :
  let e := fun k => {| type := TASK_UPDATED;
                       payload := with_status sample_task in_progress k;
                       timestamp := k; aggregateId := "task_7_abc" |} in
  TaskQueryService.getRecentEvents [e 1; e 2; e 3; e 4] 2 = [e 4; e 3] /\
  List.length (TaskQueryService.getRecentEvents [e 1; e 2; e 3; e 4] 2) = 2%nat.
Proof.
  cbv zeta.
  destruct (getRecentEvents_takes_from_the_end
              (List.map (fun k => {| type := TASK_UPDATED;
                                     payload := with_status sample_task in_progress k;
                                     timestamp := k; aggregateId := "task_7_abc" |})
                        [1; 2; 3; 4]) 2) as (H1 & H2 & _); [lia |].
  split; [exact H1 | exact H2].
Defined.

(** X9. What the component shows after a command: when a command of the
    command service returns a task, the first of the recent events read
    from the service's log (default limit) is the event of that task. *)
Theorem newest_event_comes_first :
  forall (ttl : string) (prio : TaskPriority) (task : Task) (st : TaskStatus)
         (s : TaskCommandService.t) (h : Host),
    admits (TaskCommandService.circuitBreaker s) h = true ->
    (exists t' s' h' e rest,
        TaskCommandService.createTask ttl prio s h = (Return t', s', h') /\
        TaskQueryService.getRecentEvents_default
          (TaskCommandService.getEvents s') = e :: rest /\
        payload e = t' /\ type e = TASK_CREATED) /\
    (exists t' s' h' e rest,
        TaskCommandService.updateTaskStatus task st s h = (Return t', s', h') /\
        TaskQueryService.getRecentEvents_default
          (TaskCommandService.getEvents s') = e :: rest /\
        payload e = t' /\ aggregateId e = id task).
Proof.
  intros ttl prio task st s h Ha.
  assert (Hhead : forall (l : list DomainEvent) (e : DomainEvent),
             TaskQueryService.getRecentEvents_default (l ++ [e])
             = e :: firstn 4 (rev l)).
  { intros l e. unfold TaskQueryService.getRecentEvents_default.
    rewrite (getRecentEvents_firstn (l ++ [e]) 5) by lia.
    rewrite rev_app_distr. reflexivity. }
  split.
  - destruct (createTask_admitted ttl prio s h Ha)
      as (cb1 & t' & ts & h2 & _ & Hx & _).
    eexists _, _, _, _, _. split; [exact Hx |].
    unfold TaskCommandService.getEvents. cbn [TaskCommandService.eventStore].
    rewrite Hhead. repeat split.
  - destruct (updateTaskStatus_admitted task st s h Ha) as (cb1 & _ & Hx).
    eexists _, _, _, _, _. split; [exact Hx |].
    unfold TaskCommandService.getEvents. cbn [TaskCommandService.eventStore].
    rewrite Hhead. repeat split.
Qed.

Lemma newest_event_comes_first_witness :
  let s := fst (TaskCommandService.new slow_host) in
  let h := snd (TaskCommandService.new slow_host) in
  exists e rest,
    TaskQueryService.getRecentEvents_default
      (TaskCommandService.getEvents
         (snd (fst (TaskCommandService.updateTaskStatus sample_task completed s h))))
    = e :: rest /\ aggregateId e = "task_7_abc".
Proof.
  cbv zeta.
  destruct (newest_event_comes_first "write report" high sample_task completed
              (fst (TaskCommandService.new slow_host))
              (snd (TaskCommandService.new slow_host)) eq_refl)
    as [_ (t' & s' & h' & e & rest & Hx & Hq & _ & Hid)].
  exists e, rest. rewrite Hx. split; [exact Hq | exact Hid].
Defined.

(* ======================================================================= *)
(** ** The reducer *)
(* ======================================================================= *)

Section Reducer.

Import Presentation.

Lemma replace_keeps_ids (p : Task) (l : list Task) :
  List.map id (List.map (fun t => if String.eqb (id t) (id p) then p else t) l)
  = List.map id l.
Proof.
  induction l as [| t rest IH]; [reflexivity |].
  simpl. rewrite IH. f_equal.
  destruct (String.eqb_spec (id t) (id p)); congruence.
Qed.

End Reducer.

(** X10. UPDATE_TASK replaces in place: the ids of the tasks, in order, and
    so their number, are what they were; the error is kept and the loading
    flag is cleared.  After it every task carrying the payload's id is the
    payload. *)
Theorem UPDATE_TASK_replaces_in_place :
  forall (state : Presentation.AppState) (p : Task),
    let state' := Presentation.appReducer state (Presentation.UPDATE_TASK p) in
    List.map id (Presentation.tasks state')
    = List.map id (Presentation.tasks state) /\
    List.length (Presentation.tasks state')
    = List.length (Presentation.tasks state) /\
    Presentation.error state' = Presentation.error state /\
    Presentation.isLoading state' = false /\
    forall t, In t (Presentation.tasks state') -> id t = id p -> t = p.
Proof.
  intros state p. cbv zeta. simpl.
  split; [apply replace_keeps_ids |].
  split; [apply length_map |].
  split; [reflexivity |]. split; [reflexivity |].
  intros t Hin Hid. apply in_map_iff in Hin. destruct Hin as (x & Hx & _).
  destruct (String.eqb_spec (id x) (id p)); [congruence |].
  subst t. contradiction.
Qed.

(** X11. UPDATE_TASK inserts nothing: when no task of the state carries the
    payload's id, the tasks are left as they were.  So the update of a task
    the component never added does not show. *)
Theorem UPDATE_TASK_of_unknown_id :
  forall (state : Presentation.AppState) (p : Task),
    (forall t, In t (Presentation.tasks state) -> id t <> id p) ->
    Presentation.tasks
      (Presentation.appReducer state (Presentation.UPDATE_TASK p))
    = Presentation.tasks state.
Proof.
  intros state p Hno. simpl.
  induction (Presentation.tasks state) as [| t rest IH]; [reflexivity |].
  simpl. rewrite IH by (intros x Hx; apply Hno; right; exact Hx).
  destruct (String.eqb_spec (id t) (id p)) as [E | _]; [| reflexivity].
  exfalso. apply (Hno t); [left; reflexivity | exact E].
Qed.

Lemma UPDATE_TASK_of_unknown_id_witness :
  Presentation.tasks
    (Presentation.appReducer Presentation.initialState
       (Presentation.UPDATE_TASK sample_task))
  = [].
Proof.
  apply (UPDATE_TASK_of_unknown_id Presentation.initialState sample_task).
  intros t [].
Defined.

(** X12. Dispatching the same UPDATE_TASK twice gives the state one
    dispatch gives. *)
Theorem UPDATE_TASK_idempotent :
  forall (state : Presentation.AppState) (p : Task),
    Presentation.appReducer
      (Presentation.appReducer state (Presentation.UPDATE_TASK p))
      (Presentation.UPDATE_TASK p)
    = Presentation.appReducer state (Presentation.UPDATE_TASK p).
Proof.
  intros state p. unfold Presentation.appReducer. simpl. f_equal.
  rewrite map_map. apply map_ext. intros t.
  destruct (String.eqb_spec (id t) (id p)) as [E | N].
  - rewrite String.eqb_refl. reflexivity.
  - destruct (String.eqb_spec (id t) (id p)); [contradiction | reflexivity].
Qed.

(** X13. The update flow of the component: when [updateTaskStatus] of the
    command service returns for a task and the result is dispatched as
    UPDATE_TASK, every task of the state carrying that task's id now has the
    target status, the number of tasks is unchanged, and so is every task
    with another id. *)
Theorem update_flow_sets_the_status :
  forall (state : Presentation.AppState) (task : Task) (st : TaskStatus)
         (s : TaskCommandService.t) (h : Host)
         (t' : Task) (s' : TaskCommandService.t) (h' : Host),
    TaskCommandService.updateTaskStatus task st s h = (Return t', s', h') ->
    let state' := Presentation.appReducer state (Presentation.UPDATE_TASK t') in
    List.length (Presentation.tasks state')
    = List.length (Presentation.tasks state) /\
    (forall x, In x (Presentation.tasks state') -> id x = id task ->
               status x = st /\ title x = title task /\
               priority x = priority task) /\
    (forall x, In x (Presentation.tasks state) -> id x <> id task ->
               In x (Presentation.tasks state')).
Proof.
  intros state task st s h t' s' h' Hc. cbv zeta.
  assert (Ht : t' = with_status task st
                      (now (after_gate (TaskCommandService.circuitBreaker s) h))).
  { destruct (admits (TaskCommandService.circuitBreaker s) h) eqn:Ha.
    - destruct (updateTaskStatus_admitted task st s h Ha) as (cb1 & _ & Hx).
      rewrite Hx in Hc. congruence.
    - rewrite (updateTaskStatus_refused task st s h Ha) in Hc. discriminate. }
  simpl. split; [apply length_map |]. split.
  - intros x Hin Hid. apply in_map_iff in Hin. destruct Hin as (y & Hy & _).
    destruct (String.eqb_spec (id y) (id t')) as [E | N].
    + subst x. subst t'. repeat split.
    + subst x. subst t'. simpl in N. contradiction.
  - intros x Hin Hid. apply in_map_iff. exists x. split; [| exact Hin].
    destruct (String.eqb_spec (id x) (id t')) as [E | N]; [| reflexivity].
    subst t'. simpl in E. contradiction.
Qed.

Lemma update_flow_sets_the_status_witness :
  let state := Presentation.appReducer Presentation.initialState
                 (Presentation.ADD_TASK sample_task) in
  let state' := Presentation.appReducer state
                  (Presentation.UPDATE_TASK
                     (with_status sample_task completed 10000)) in
  List.length (Presentation.tasks state') = 1%nat /\
  forall x, In x (Presentation.tasks state') ->
            id x = id sample_task -> status x = completed.
Proof.
  cbv zeta.
  destruct (update_flow_sets_the_status
              (Presentation.appReducer Presentation.initialState
                 (Presentation.ADD_TASK sample_task))
              sample_task completed
              (fst (TaskCommandService.new slow_host))
              (snd (TaskCommandService.new slow_host))
              (with_status sample_task completed 10000) _ _ eq_refl)
    as (Hl & H & _).
  split; [exact Hl |].
  intros x Hin Hid. exact (proj1 (H x Hin Hid)).
Defined.

(* ======================================================================= *)
(** ** Histories of the command service *)
(* ======================================================================= *)

Lemma after_gate_passing cb h : state cb <> OPEN -> after_gate cb h = h.
Proof. intros Hs. unfold after_gate. rewrite gate_passes by assumption. reflexivity. Qed.

Lemma admits_passing cb h : state cb <> OPEN -> admits cb h = true.
Proof. intros Hs. apply admits_spec. left. exact Hs. Qed.

Lemma onSuccess_CLOSED cb :
  state cb = CLOSED ->
  state (onSuccess cb) = CLOSED /\ failureCount (onSuccess cb) = 0 /\
  successCount (onSuccess cb) = successCount cb.
Proof. intros Hs. unfold onSuccess. simpl. rewrite Hs. simpl. auto. Qed.

Lemma command_invariant s :
  command_reachable s ->
  state (TaskCommandService.circuitBreaker s) = CLOSED /\
  failureCount (TaskCommandService.circuitBreaker s) = 0 /\
  successCount (TaskCommandService.circuitBreaker s) = 0 /\
  Forall well_formed_event (TaskCommandService.eventStore s).
Proof.
  induction 1 as [h | ttl prio s h Hr IH | task st s h Hr IH].
  - simpl. repeat split. constructor.
  - destruct IH as (Hs & Hf & Hsc & Hw).
    assert (Hn : state (TaskCommandService.circuitBreaker s) <> OPEN) by congruence.
    destruct (createTask_admitted ttl prio s h (admits_passing _ h Hn))
      as (cb1 & t' & ts & h2 & Hg & Hx & _).
    rewrite gate_passes in Hg by assumption. injection Hg as <- _.
    rewrite Hx. simpl.
    destruct (onSuccess_CLOSED _ Hs) as (O1 & O2 & O3).
    split; [exact O1 |]. split; [exact O2 |]. split; [congruence |].
    apply Forall_app. split; [exact Hw |].
    constructor; [| constructor]. split; [reflexivity | discriminate].
  - destruct IH as (Hs & Hf & Hsc & Hw).
    assert (Hn : state (TaskCommandService.circuitBreaker s) <> OPEN) by congruence.
    destruct (updateTaskStatus_admitted task st s h (admits_passing _ h Hn))
      as (cb1 & Hg & Hx).
    rewrite gate_passes in Hg by assumption. injection Hg as <- _.
    rewrite Hx. simpl.
    destruct (onSuccess_CLOSED _ Hs) as (O1 & O2 & O3).
    split; [exact O1 |]. split; [exact O2 |]. split; [congruence |].
    apply Forall_app. split; [exact Hw |].
    constructor; [| constructor]. split; [reflexivity |].
    simpl. unfold update_event_type.
    destruct (TaskStatus_eqb st completed); discriminate.
Qed.

(** X14. The breaker of a command service never opens. Nothing the command
    service runs through its breaker can throw, so on a service built by
    [new] and used through [createTask] and [updateTaskStatus] the breaker
    is CLOSED with both counters at 0 after every call, and every further
    command returns: [updateTaskStatus] returns the task with the new status
    stamped with the next reading of the clock. *)
Theorem command_breaker_stays_CLOSED :
  forall s : TaskCommandService.t,
    command_reachable s ->
    TaskCommandService.getCircuitBreakerState s = CLOSED /\
    failureCount (TaskCommandService.circuitBreaker s) = 0 /\
    successCount (TaskCommandService.circuitBreaker s) = 0 /\
    (forall (ttl : string) (prio : TaskPriority) (h : Host),
        exists t', fst (fst (TaskCommandService.createTask ttl prio s h))
                   = Return t') /\
    (forall (task : Task) (st : TaskStatus) (h : Host),
        fst (fst (TaskCommandService.updateTaskStatus task st s h))
        = Return (with_status task st (now h))).
Proof.
  intros s Hr. destruct (command_invariant s Hr) as (Hs & Hf & Hsc & _).
  assert (Hn : state (TaskCommandService.circuitBreaker s) <> OPEN) by congruence.
  split; [exact Hs |]. split; [exact Hf |]. split; [exact Hsc |]. split.
  - intros ttl prio h.
    destruct (createTask_admitted ttl prio s h (admits_passing _ h Hn))
      as (cb1 & t' & ts & h2 & _ & Hx & _).
    exists t'. rewrite Hx. reflexivity.
  - intros task st h.
    destruct (updateTaskStatus_admitted task st s h (admits_passing _ h Hn))
      as (cb1 & _ & Hx).
    rewrite Hx. simpl. rewrite after_gate_passing by assumption. reflexivity.
Qed.

Lemma command_breaker_stays_CLOSED_witness :
  let s0 := fst (TaskCommandService.new slow_host) in
  let h0 := snd (TaskCommandService.new slow_host) in
  let r1 := TaskCommandService.createTask "write report" high s0 h0 in
  let r2 := TaskCommandService.updateTaskStatus sample_task failed
              (snd (fst r1)) (snd r1) in
  TaskCommandService.getCircuitBreakerState (snd (fst r2)) = CLOSED /\
  failureCount (TaskCommandService.circuitBreaker (snd (fst r2))) = 0.
Proof.
  cbv zeta.
  destruct (command_breaker_stays_CLOSED _
              (command_updateTaskStatus sample_task failed _
                 (snd (TaskCommandService.createTask "write report" high
                         (fst (TaskCommandService.new slow_host))
                         (snd (TaskCommandService.new slow_host))))
                 (command_createTask "write report" high _
                    (snd (TaskCommandService.new slow_host))
                    (command_new slow_host))))
    as (H1 & H2 & _).
  split; [exact H1 | exact H2].
Defined.

(** X15. Every event in the log of a command service carries the id of its
    own payload as [aggregateId], and none is of type TASK_FAILED. *)
Theorem command_log_well_formed :
  forall s : TaskCommandService.t,
    command_reachable s ->
    forall e, In e (TaskCommandService.getEvents s) ->
              aggregateId e = id (payload e) /\ type e <> TASK_FAILED.
Proof.
  intros s Hr e Hin. destruct (command_invariant s Hr) as (_ & _ & _ & Hw).
  rewrite Forall_forall in Hw. exact (Hw e Hin).
Qed.

Lemma command_log_well_formed_witness :
  let s0 := fst (TaskCommandService.new slow_host) in
  let h0 := snd (TaskCommandService.new slow_host) in
  let s1 := snd (fst (TaskCommandService.updateTaskStatus sample_task failed s0 h0)) in
  List.length (TaskCommandService.getEvents s1) = 1%nat /\
  forall e, In e (TaskCommandService.getEvents s1) ->
            aggregateId e = id (payload e) /\ type e <> TASK_FAILED.
Proof.
  cbv zeta. split; [reflexivity |].
  apply command_log_well_formed.
  apply command_updateTaskStatus. apply command_new.
Defined.

(** X16. A command the breaker rejects changes nothing in either service:
    tasks, log and breaker are what they were, and the caller gets the
    breaker's error. *)
Theorem rejected_command_changes_nothing :
  forall (ttl : string) (prio : TaskPriority) (task : Task) (taskId : string)
         (st : TaskStatus) (s : TaskCommandService.t) (s2 : TaskService.t)
         (h : Host),
    (admits (TaskCommandService.circuitBreaker s) h = false ->
     TaskCommandService.createTask ttl prio s h
     = (Throw BreakerOpenError, s, tick h) /\
     TaskCommandService.updateTaskStatus task st s h
     = (Throw BreakerOpenError, s, tick h)) /\
    (admits (TaskService.circuitBreaker s2) h = false ->
     TaskService.createTask ttl prio s2 h
     = (Throw BreakerOpenError, s2, tick h) /\
     TaskService.updateTaskStatus taskId st s2 h
     = (Throw BreakerOpenError, s2, tick h)).
Proof.
  intros ttl prio task taskId st s s2 h. split; intros Ha.
  - split; [apply createTask_refused | apply updateTaskStatus_refused]; exact Ha.
  - split; apply store_through_breaker_refused; exact Ha.
Qed.

Lemma rejected_command_changes_nothing_witness :
  TaskService.updateTaskStatus "task_7_abc" completed
    (fst thrice_missed) (snd thrice_missed)
  = (Throw BreakerOpenError, fst thrice_missed, tick (snd thrice_missed)) /\
  TaskService.createTask "write report" high
    (fst thrice_missed) (snd thrice_missed)
  = (Throw BreakerOpenError, fst thrice_missed, tick (snd thrice_missed)).
Proof.
  destruct (rejected_command_changes_nothing "write report" high sample_task
              "task_7_abc" completed (fst (TaskCommandService.new slow_host))
              (fst thrice_missed) (snd thrice_missed)) as [_ H].
  destruct (H eq_refl) as [H1 H2]. split; [exact H2 | exact H1].
Defined.

(* ======================================================================= *)
(** ** Histories of the service that stores its tasks *)
(* ======================================================================= *)

Section StoreHistories.

Lemma replace_by_id_keeps_ids (taskId : string) (u : Task) (l : list Task) :
  id u = taskId ->
  List.map id (List.map (fun t => if String.eqb (id t) taskId then u else t) l)
  = List.map id l.
Proof.
  intros Hu. induction l as [| t rest IH]; [reflexivity |].
  simpl. rewrite IH. f_equal.
  destruct (String.eqb_spec (id t) taskId); congruence.
Qed.

Lemma find_after_replace (taskId : string) (u found : Task) (l : list Task) :
  id u = taskId ->
  find (fun t => String.eqb (id t) taskId) l = Some found ->
  find (fun t => String.eqb (id t) taskId)
       (List.map (fun t => if String.eqb (id t) taskId then u else t) l)
  = Some u.
Proof.
  intros Hu. induction l as [| t rest IH]; [discriminate |].
  simpl. destruct (String.eqb (id t) taskId) eqn:E.
  - intros _. rewrite Hu, String.eqb_refl. reflexivity.
  - rewrite E. exact IH.
Qed.

Lemma find_in_snoc (taskId : string) (t : Task) (l : list Task) :
  id t = taskId ->
  exists found,
    find (fun x => String.eqb (id x) taskId) (l ++ [t]) = Some found /\
    id found = taskId /\
    ((forall x, In x l -> id x <> taskId) -> found = t).
Proof.
  intros Ht. induction l as [| x rest IH].
  - exists t. simpl. rewrite Ht, String.eqb_refl. auto.
  - simpl. destruct (String.eqb_spec (id x) taskId) as [E | N].
    + exists x. split; [reflexivity |]. split; [exact E |].
      intros Hno. exfalso. apply (Hno x); [left; reflexivity | exact E].
    + destruct IH as (found & Hf & Hid & Hu).
      exists found. split; [exact Hf |]. split; [exact Hid |].
      intros Hno. apply Hu. intros y Hy. apply Hno. right. exact Hy.
Qed.

(** What a call of [createTask] leaves in the two arrays. *)
Lemma store_createTask_cases ttl prio s h :
  let s' := snd (fst (TaskService.createTask ttl prio s h)) in
  (TaskService.tasks s' = TaskService.tasks s /\
   TaskService.eventStore s' = TaskService.eventStore s) \/
  (exists t ts,
      TaskService.tasks s' = TaskService.tasks s ++ [t] /\
      TaskService.eventStore s'
      = TaskService.eventStore s
        ++ [ {| type := TASK_CREATED; payload := t; timestamp := ts;
                aggregateId := id t |} ]).
Proof.
  cbv zeta. unfold TaskService.createTask.
  destruct (admits (TaskService.circuitBreaker s) h) eqn:Ha.
  - destruct (store_through_breaker_returns
                (TaskService.createTask_body ttl prio) s h _ _ _ Ha
                (store_createTask_body_runs ttl prio _ _)) as (cb1 & _ & Hx).
    rewrite Hx. right. eexists _, _. split; reflexivity.
  - rewrite (store_through_breaker_refused _ s h Ha). left. split; reflexivity.
Qed.

(** What a call of [updateTaskStatus] leaves in the two arrays. *)
Lemma store_updateTaskStatus_cases taskId st s h :
  let s' := snd (fst (TaskService.updateTaskStatus taskId st s h)) in
  (TaskService.tasks s' = TaskService.tasks s /\
   TaskService.eventStore s' = TaskService.eventStore s) \/
  (exists found u ts,
      find (fun t => String.eqb (id t) taskId) (TaskService.tasks s) = Some found /\
      id u = id found /\
      TaskService.tasks s'
      = List.map (fun t => if String.eqb (id t) taskId then u else t)
                 (TaskService.tasks s) /\
      TaskService.eventStore s'
      = TaskService.eventStore s
        ++ [ {| type := update_event_type st; payload := u; timestamp := ts;
                aggregateId := id found |} ]).
Proof.
  cbv zeta. unfold TaskService.updateTaskStatus.
  destruct (admits (TaskService.circuitBreaker s) h) eqn:Ha.
  - destruct (find (fun t => String.eqb (id t) taskId) (TaskService.tasks s))
      as [found |] eqn:Hf.
    + destruct (store_through_breaker_returns
                  (TaskService.updateTaskStatus_body taskId st) s h _ _ _ Ha
                  (store_updateTaskStatus_body_found taskId st
                     {| TaskService.s_tasks := TaskService.tasks s;
                        TaskService.s_events := TaskService.eventStore s |}
                     _ found Hf)) as (cb1 & _ & Hx).
      rewrite Hx. right. eexists found, _, _.
      split; [reflexivity |]. split; [| split; reflexivity]. reflexivity.
    + destruct (store_through_breaker_throws
                  (TaskService.updateTaskStatus_body taskId st) s h _ _ _ Ha
                  (store_updateTaskStatus_body_missing taskId st
                     {| TaskService.s_tasks := TaskService.tasks s;
                        TaskService.s_events := TaskService.eventStore s |}
                     _ Hf)) as (cb1 & _ & _ & _ & _ & _ & Hx).
      rewrite Hx. left. split; reflexivity.
  - rewrite (store_through_breaker_refused _ s h Ha). left. split; reflexivity.
Qed.

Lemma created_count_snoc log e :
  created_count (log ++ [e])
  = (created_count log
     + match type e with TASK_CREATED => 1 | _ => 0 end)%nat.
Proof.
  unfold created_count. rewrite filter_app, length_app. simpl.
  destruct (type e); reflexivity.
Qed.

Lemma service_invariant s :
  service_reachable s ->
  Forall well_formed_event (TaskService.eventStore s) /\
  (forall e, In e (TaskService.eventStore s) ->
             In (aggregateId e) (List.map id (TaskService.tasks s))) /\
  (forall i, In i (List.map id (TaskService.tasks s)) ->
             exists e, In e (TaskService.eventStore s) /\
                       type e = TASK_CREATED /\ aggregateId e = i) /\
  created_count (TaskService.eventStore s) = List.length (TaskService.tasks s).
Proof.
  induction 1 as [h | ttl prio s h Hr IH | taskId st s h Hr IH].
  - simpl. repeat split; try constructor; intros ? [].
  - destruct IH as (Hw & He & Ht & Hc).
    destruct (store_createTask_cases ttl prio s h) as [[E1 E2] | (t & ts & E1 & E2)];
      cbv zeta in E1, E2; rewrite E1, E2.
    + repeat split; assumption.
    + split; [| split; [| split]].
      * apply Forall_app. split; [exact Hw |].
        constructor; [| constructor]. split; [reflexivity | discriminate].
      * intros e Hin. rewrite map_app. apply in_or_app.
        apply in_app_or in Hin. destruct Hin as [Hin | [<- | []]].
        -- left. apply He. exact Hin.
        -- right. left. reflexivity.
      * intros i Hin. rewrite map_app in Hin. apply in_app_or in Hin.
        destruct Hin as [Hin | [<- | []]].
        -- destruct (Ht i Hin) as (e & H1 & H2 & H3).
           exists e. split; [apply in_or_app; left; exact H1 | auto].
        -- eexists. split; [apply in_or_app; right; left; reflexivity |].
           split; reflexivity.
      * rewrite created_count_snoc, length_app, Hc. reflexivity.
  - destruct IH as (Hw & He & Ht & Hc).
    destruct (store_updateTaskStatus_cases taskId st s h)
      as [[E1 E2] | (found & u & ts & Hf & Hu & E1 & E2)];
      cbv zeta in E1, E2; rewrite E1, E2.
    + repeat split; assumption.
    + apply find_some in Hf. destruct Hf as [Hin Heq].
      apply String.eqb_eq in Heq.
      assert (Hids : List.map id
                       (List.map (fun t => if String.eqb (id t) taskId
                                           then u else t) (TaskService.tasks s))
                     = List.map id (TaskService.tasks s)).
      { apply replace_by_id_keeps_ids. congruence. }
      split; [| split; [| split]].
      * apply Forall_app. split; [exact Hw |].
        constructor; [| constructor]. split; [simpl; congruence |].
        simpl. unfold update_event_type.
        destruct (TaskStatus_eqb st completed); discriminate.
      * intros e Hine. rewrite Hids. apply in_app_or in Hine.
        destruct Hine as [Hine | [<- | []]].
        -- apply He. exact Hine.
        -- simpl. apply in_map. exact Hin.
      * intros i Hini. rewrite Hids in Hini.
        destruct (Ht i Hini) as (e & H1 & H2 & H3).
        exists e. split; [apply in_or_app; left; exact H1 | auto].
      * rewrite created_count_snoc, length_map, Hc. simpl.
        unfold update_event_type.
        destruct (TaskStatus_eqb st completed); simpl; lia.
Qed.

Lemma store_update_found taskId st s h found :
  admits (TaskService.circuitBreaker s) h = true ->
  find (fun t => String.eqb (id t) taskId) (TaskService.tasks s) = Some found ->
  fst (fst (TaskService.updateTaskStatus taskId st s h))
  = Return (with_status found st
              (now (after_gate (TaskService.circuitBreaker s) h))).
Proof.
  intros Ha Hf. unfold TaskService.updateTaskStatus.
  destruct (store_through_breaker_returns
              (TaskService.updateTaskStatus_body taskId st) s h _ _ _ Ha
              (store_updateTaskStatus_body_found taskId st
                 {| TaskService.s_tasks := TaskService.tasks s;
                    TaskService.s_events := TaskService.eventStore s |}
                 _ found Hf)) as (cb1 & _ & Hx).
  rewrite Hx. reflexivity.
Qed.

End StoreHistories.

(** X17. In the service that stores its tasks the log and the store agree
    after any history of commands: every event carries the id of its payload
    and the id of a stored task, none is of type TASK_FAILED, every stored
    task has a TASK_CREATED event of its id, and there are as many
    TASK_CREATED events as stored tasks. *)
Theorem store_and_log_agree :
  forall s : TaskService.t,
    service_reachable s ->
    (forall e, In e (TaskService.getEvents s) ->
               aggregateId e = id (payload e) /\ type e <> TASK_FAILED /\
               exists t, In t (TaskService.getTasks s) /\ id t = aggregateId e) /\
    (forall t, In t (TaskService.getTasks s) ->
               exists e, In e (TaskService.getEvents s) /\
                         type e = TASK_CREATED /\ aggregateId e = id t) /\
    created_count (TaskService.getEvents s)
    = List.length (TaskService.getTasks s).
Proof.
  intros s Hr. destruct (service_invariant s Hr) as (Hw & He & Ht & Hc).
  unfold TaskService.getEvents, TaskService.getTasks.
  split; [| split].
  - intros e Hin. rewrite Forall_forall in Hw. destruct (Hw e Hin) as [W1 W2].
    split; [exact W1 |]. split; [exact W2 |].
    specialize (He e Hin). apply in_map_iff in He.
    destruct He as (t & H1 & H2). exists t. split; assumption.
  - intros t Hin. apply Ht. apply in_map. exact Hin.
  - exact Hc.
Qed.

Lemma store_and_log_agree_witness :
  let s := snd (fst (TaskService.updateTaskStatus stocked_id completed
                       (fst stocked_service) (snd stocked_service))) in
  List.length (TaskService.getEvents s) = 2%nat /\
  created_count (TaskService.getEvents s) = List.length (TaskService.getTasks s) /\
  forall e, In e (TaskService.getEvents s) -> aggregateId e = id (payload e).
Proof.
  cbv zeta. split; [reflexivity |].
  assert (Hr : service_reachable
                 (snd (fst (TaskService.updateTaskStatus stocked_id completed
                              (fst stocked_service) (snd stocked_service))))).
  { apply service_updateTaskStatus.
    exact (service_createTask "write report" high _
             (snd (TaskService.new slow_host)) (service_new slow_host)). }
  destruct (store_and_log_agree _ Hr) as (H1 & _ & H3).
  split; [exact H3 |]. intros e Hin. exact (proj1 (H1 e Hin)).
Defined.

(** X18. An update by id that finds its task: when the breaker lets the call
    in and the store holds a task of that id, [updateTaskStatus] returns
    the first such task with the new status and the time just read; the
    ids of the stored tasks, in order, are unchanged; looking the id up
    again finds the returned task; tasks of other ids are kept. *)
Theorem update_by_id_found :
  forall (taskId : string) (st : TaskStatus) (s : TaskService.t) (h : Host)
         (found : Task),
    admits (TaskService.circuitBreaker s) h = true ->
    find (fun t => String.eqb (id t) taskId) (TaskService.tasks s) = Some found ->
    let r := TaskService.updateTaskStatus taskId st s h in
    let u := with_status found st
               (now (after_gate (TaskService.circuitBreaker s) h)) in
    fst (fst r) = Return u /\
    List.map id (TaskService.tasks (snd (fst r)))
    = List.map id (TaskService.tasks s) /\
    find (fun t => String.eqb (id t) taskId) (TaskService.tasks (snd (fst r)))
    = Some u /\
    (forall x, In x (TaskService.tasks s) -> id x <> taskId ->
               In x (TaskService.tasks (snd (fst r)))).
Proof.
  intros taskId st s h found Ha Hf. cbv zeta.
  unfold TaskService.updateTaskStatus.
  destruct (store_through_breaker_returns
              (TaskService.updateTaskStatus_body taskId st) s h _ _ _ Ha
              (store_updateTaskStatus_body_found taskId st
                 {| TaskService.s_tasks := TaskService.tasks s;
                    TaskService.s_events := TaskService.eventStore s |}
                 _ found Hf)) as (cb1 & _ & Hx).
  rewrite Hx. cbn [fst snd TaskService.tasks TaskService.s_tasks].
  assert (Hid : id found = taskId).
  { apply find_some in Hf. destruct Hf as [_ Heq].
    apply String.eqb_eq in Heq. exact Heq. }
  split; [reflexivity |]. split; [| split].
  - apply replace_by_id_keeps_ids. exact Hid.
  - apply (find_after_replace taskId _ found); [exact Hid | exact Hf].
  - intros x Hin Hne. apply in_map_iff. exists x. split; [| exact Hin].
    destruct (String.eqb_spec (id x) taskId); [contradiction | reflexivity].
Qed.

Lemma update_by_id_found_witness :
  let r := TaskService.updateTaskStatus stocked_id completed
             (fst stocked_service) (snd stocked_service) in
  exists u, fst (fst r) = Return u /\ status u = completed /\
            id u = "task_10000_k3j9x0q2a" /\
            find (fun t => String.eqb (id t) stocked_id)
                 (TaskService.tasks (snd (fst r))) = Some u.
Proof.
  cbv zeta.
  destruct (update_by_id_found stocked_id completed (fst stocked_service)
              (snd stocked_service) _ eq_refl eq_refl) as (H1 & _ & H3 & _).
  eexists. split; [exact H1 |]. split; [reflexivity |].
  split; [reflexivity | exact H3].
Defined.

(** X19. Create, then update. When [createTask] of the storing service
    returns a task, that task is the last of the stored tasks, and an update
    of its id on the service as the call left it is never rejected and never
    misses: it returns a task of that id with the new status, which is the
    created task with the new status and time when no older task had the
    same id. *)
Theorem created_task_can_be_updated :
  forall (ttl : string) (prio : TaskPriority) (st : TaskStatus)
         (s : TaskService.t) (h : Host)
         (t' : Task) (s' : TaskService.t) (h' : Host) (h2 : Host),
    TaskService.createTask ttl prio s h = (Return t', s', h') ->
    TaskService.getTasks s' = TaskService.getTasks s ++ [t'] /\
    exists u,
      fst (fst (TaskService.updateTaskStatus (id t') st s' h2)) = Return u /\
      id u = id t' /\ status u = st /\
      ((forall x, In x (TaskService.getTasks s) -> id x <> id t') ->
       u = with_status t' st (now h2)).
Proof.
  intros ttl prio st s h t' s' h' h2 Hc.
  unfold TaskService.createTask in Hc.
  destruct (admits (TaskService.circuitBreaker s) h) eqn:Ha.
  - destruct (gate_admits _ _ Ha) as (cb0 & Hg0 & Hn0 & _).
    destruct (store_through_breaker_returns
                (TaskService.createTask_body ttl prio) s h _ _ _ Ha
                (store_createTask_body_runs ttl prio _ _)) as (cb1 & Hg & Hx).
    rewrite Hg0 in Hg. injection Hg as <-.
    rewrite Hx in Hc. injection Hc as <- <- _.
    unfold TaskService.getTasks. cbn [TaskService.tasks TaskService.s_tasks].
    split; [reflexivity |].
    set (t := {| id := _; title := ttl |}).
    set (s1 := {| TaskService.tasks := _ |}).
    assert (Hn1 : state (TaskService.circuitBreaker s1) <> OPEN).
    { subst s1. cbn [TaskService.circuitBreaker]. apply onSuccess_not_OPEN. exact Hn0. }
    destruct (find_in_snoc (id t) t (TaskService.tasks s) eq_refl)
      as (found & Hf & Hid & Hu).
    assert (Hf1 : find (fun x => String.eqb (id x) (id t)) (TaskService.tasks s1)
                  = Some found) by exact Hf.
    rewrite (store_update_found (id t) st s1 h2 found
               (admits_passing _ h2 Hn1) Hf1).
    rewrite (after_gate_passing _ h2 Hn1).
    exists (with_status found st (now h2)).
    split; [reflexivity |]. split; [exact Hid |]. split; [reflexivity |].
    intros Hno. rewrite (Hu Hno). reflexivity.
  - rewrite (store_through_breaker_refused _ s h Ha) in Hc. discriminate.
Qed.

Lemma created_task_can_be_updated_witness :
  let s := fst (TaskService.new slow_host) in
  let h := snd (TaskService.new slow_host) in
  let r := TaskService.createTask "write report" high s h in
  exists t' u,
    fst (fst r) = Return t' /\
    TaskService.getTasks (snd (fst r)) = [t'] /\
    fst (fst (TaskService.updateTaskStatus (id t') in_progress
                (snd (fst r)) (snd r))) = Return u /\
    id u = id t' /\ status u = in_progress /\
    u = with_status t' in_progress (now (snd r)).
Proof.
  cbv zeta.
  destruct (created_task_can_be_updated "write report" high in_progress
              (fst (TaskService.new slow_host)) (snd (TaskService.new slow_host))
              _ _ _
              (snd (TaskService.createTask "write report" high
                      (fst (TaskService.new slow_host))
                      (snd (TaskService.new slow_host))))
              eq_refl) as (H1 & u & H2 & H3 & H4 & H5).
  eexists _, u. split; [reflexivity |]. split; [exact H1 |].
  split; [exact H2 |]. split; [exact H3 |]. split; [exact H4 |].
  apply H5. intros x [].
Defined.

(** X20. What [createTask] of the command service builds. When the breaker
    lets the call in, the call returns a task with the given title and
    priority, in status [pending], whose id is "task_", the time first read,
    "_" and the random suffix, and whose [createdAt] and [updatedAt] are the
    next two readings of the clock; the event appended is of type
    TASK_CREATED and stamped with the reading after those.  The call reads
    the clock four times and draws one random suffix. *)
Theorem createTask_builds_a_pending_task :
  forall (ttl : string) (prio : TaskPriority) (s : TaskCommandService.t)
         (h : Host),
    admits (TaskCommandService.circuitBreaker s) h = true ->
    let g := after_gate (TaskCommandService.circuitBreaker s) h in
    exists t' e s' h',
      TaskCommandService.createTask ttl prio s h = (Return t', s', h') /\
      title t' = ttl /\ priority t' = prio /\ status t' = pending /\
      id t' = ("task_" ++ string_of_Z (now g) ++ "_"
               ++ random g (random_reads g))%string /\
      createdAt t' = now (tick g) /\
      updatedAt t' = now (tick (tick g)) /\
      TaskCommandService.eventStore s' = TaskCommandService.eventStore s ++ [e] /\
      type e = TASK_CREATED /\
      timestamp e = now (tick (tick (tick g))) /\
      clock_reads h' = (clock_reads g + 4)%nat /\
      random_reads h' = S (random_reads g).
Proof.
  intros ttl prio s h Ha. cbv zeta.
  destruct (through_breaker_returns (TaskCommandService.createTask_body ttl prio)
              s h _ _ _ Ha (createTask_body_runs ttl prio _ _)) as (cb1 & _ & Hx).
  eexists _, _, _, _. split; [exact Hx |].
  cbn [title priority status id createdAt updatedAt
       TaskCommandService.eventStore type timestamp].
  repeat (split; [reflexivity |]).
  split; [simpl; lia | reflexivity].
Qed.

Lemma createTask_builds_a_pending_task_witness :
  let s := fst (TaskCommandService.new slow_host) in
  let h := snd (TaskCommandService.new slow_host) in
  exists t',
    fst (fst (TaskCommandService.createTask "write report" high s h)) = Return t' /\
    status t' = pending /\ id t' = "task_10000_k3j9x0q2a" /\
    createdAt t' = 20000 /\ updatedAt t' = 30000.
Proof.
  cbv zeta.
  destruct (createTask_builds_a_pending_task "write report" high
              (fst (TaskCommandService.new slow_host))
              (snd (TaskCommandService.new slow_host)) eq_refl)
    as (t' & e & s' & h' & Hx & _ & _ & H3 & H4 & H5 & H6 & _).
  cbv zeta in H4, H5, H6.
  exists t'. rewrite Hx. split; [reflexivity |]. split; [exact H3 |].
  split; [exact H4 |]. split; [exact H5 | exact H6].
Defined.
